(** * The orchestration server of the sign-language pipeline

    A shallow embedding of the Node.js gateway found in
    [src/client/src/App.jsx] (the part that starts at
    [const WebSocket = require('ws')]): the WebSocket message handler, the
    three RabbitMQ consumers ([handleResultMessage],
    [handleDeadLetterMessage], [handleAggregationNotification]) and the Redis
    record they share with the recognition workers.  The socket listener
    and the capture loop of the React client in the first part of the file
    follow, as far as they touch the frames exchanged with the gateway.

    Conventions of the embedding.
    - JavaScript values are the inductive type [JSValue]; numbers are IEEE
      binary64 floats, as in the language.
    - Global state ([waitingClients], the Redis keyspace, the socket objects)
      is one record [World]; a socket object is named by a handle, so that the
      registry stores references, as the JavaScript [Map] does.
    - Outbound I/O (acknowledgements, publishes, frames written to a socket)
      is an append-only list of [Effect]s.  [console.log] lines are dropped.
    - A handler is a function [World -> Outcome * World * list Effect]; a
      thrown exception is the [Throw] outcome.
    - The Redis client and the broker channel are taken to answer every
      call.  The consumers and [on_message] run to completion, with the
      points where the source awaits Redis sequenced in place.  For the
      socket message handler, which can be entered again while it awaits,
      the handler cut at its awaits is given as well ([begin], [resume],
      [async_run]), with the replies of the store as events; [on_message] is
      that handler when its replies arrive before the next frame.
    - Built-ins of the platform that the source only calls ([JSON.parse],
      [JSON.stringify], [Number.prototype.toString], [Buffer.from],
      [Buffer.prototype.toString], [uuidv4]) are parameters of the section;
      the UTF-8 decoder behind [Buffer.prototype.toString] and the decimal
      text of a number are also given in full. *)

From Stdlib Require Import Floats.
From stdpp Require Import gmap strings list fin_maps pretty.

#[local] Set Warnings "-inexact-float".

Local Open Scope string_scope.
Local Open Scope list_scope.
Local Open Scope stdpp_scope.

(** ** JavaScript values *)

#[warnings="-register-all"]
Inductive JSValue : Type :=
| JUndefined
| JNull
| JBool (b : bool)
| JNum (n : float)
| JStr (s : string)
| JArr (elems : list JSValue)
| JObj (props : list (string * JSValue)).

Inductive JSError : Type :=
| SyntaxError
| TypeError (message : string)
| Error (message : string).

Inductive Outcome (A : Type) : Type :=
| Return (a : A)
| Throw (e : JSError).
Arguments Return {A} a.
Arguments Throw {A} e.

(** The one-character string made of a double quote. *)
Definition dquote : string := String (Ascii.ascii_of_nat 34) EmptyString.

(** [ToBoolean]: the falsy values are [undefined], [null], [false], [0],
    [-0], [NaN] and the empty string. *)
Definition ToBoolean (v : JSValue) : bool :=
  match v with
  | JUndefined | JNull => false
  | JBool b => b
  | JNum n => negb (PrimFloat.eqb n 0 || PrimFloat.is_nan n)
  | JStr s => negb (String.eqb s EmptyString)
  | JArr _ | JObj _ => true
  end.

(** [a || b] *)
Definition js_or (a b : JSValue) : JSValue :=
  if ToBoolean a then a else b.

(** [v === 'literal'] for a string literal on the right. *)
Definition strict_eq_str (v : JSValue) (lit : string) : bool :=
  match v with
  | JStr s => String.eqb s lit
  | _ => false
  end.

(** [v !== undefined] *)
Definition not_undefined (v : JSValue) : bool :=
  match v with
  | JUndefined => false
  | _ => true
  end.

Fixpoint assoc (name : string) (props : list (string * JSValue)) : JSValue :=
  match props with
  | [] => JUndefined
  | (k, v) :: rest => if String.eqb k name then v else assoc name rest
  end.

(** [v.name] for the property names the server reads ([type], [sequence],
    [tone], [sentence]), none of which is a member of a built-in prototype:
    reading them off [null] or [undefined] throws, off an object it is the own
    property, off any other value it is [undefined].  The text of the
    [TypeError] differs between engines; it is given up to the name of the
    property, which V8 adds as [(reading 'name')]. *)
Definition get_prop (v : JSValue) (name : string) : Outcome JSValue :=
  match v with
  | JUndefined =>
      Throw (TypeError "Cannot read properties of undefined")
  | JNull =>
      Throw (TypeError "Cannot read properties of null")
  | JObj props => Return (assoc name props)
  | _ => Return JUndefined
  end.

(** ** Sockets, messages, the store *)

Inductive ReadyState : Type := CONNECTING | OPEN | CLOSING | CLOSED.

Definition is_OPEN (r : ReadyState) : bool :=
  match r with OPEN => true | _ => false end.

(** The fields of a [ws] connection object that the server touches. *)
Record WebSocket : Type := mkWebSocket {
  landmarkSequences : list JSValue;
  readyState : ReadyState
}.

Definition Buffer : Type := list Byte.byte.

Record Properties : Type := mkProperties {
  correlationId : option string;
  replyTo : option string
}.

Record Message : Type := mkMessage {
  content : Buffer;
  properties : Properties
}.

(** A Redis hash with the expiry set on its key, in seconds. *)
Record RedisHash : Type := mkRedisHash {
  fields : gmap string string;
  ttl : option nat
}.

(** [waitingClients] is the [Map] of that name, from correlation identity to
    socket handle; [redis] is the keyspace of the shared store; [sockets]
    holds the socket objects by handle; [uuid_calls] counts the calls of
    [uuidv4()] made so far. *)
Record World : Type := mkWorld {
  waitingClients : gmap string nat;
  redis : gmap string RedisHash;
  sockets : gmap nat WebSocket;
  uuid_calls : nat
}.

Inductive Effect : Type :=
| Ack (msg : Message)
| Publish (exchange routingKey : string) (body : Buffer) (options : Properties)
| Send (ws : nat) (data : string).

Definition JOBS_EXCHANGE : string := "aurasign_pipeline".
Definition NOTIFICATION_QUEUE : string := "aggregator_notifications_to_nodejs".
Definition RESULTS_QUEUE : string := "aurasign_results_to_nodejs".
Definition DEAD_LETTER_QUEUE : string := "aurasign_tts_dead_letter".

(** ** The handler monad: state, an effect log and exceptions *)

Definition Handler (A : Type) : Type :=
  World -> Outcome A * World * list Effect.

Definition ret {A} (a : A) : Handler A :=
  fun w => (Return a, w, []).

Definition bind {A B} (m : Handler A) (k : A -> Handler B) : Handler B :=
  fun w =>
    match m w with
    | (Return a, w1, e1) =>
        match k a w1 with
        | (r, w2, e2) => (r, w2, e1 ++ e2)
        end
    | (Throw err, w1, e1) => (Throw err, w1, e1)
    end.

Definition throw {A} (err : JSError) : Handler A :=
  fun w => (Throw err, w, []).

Definition lift {A} (o : Outcome A) : Handler A :=
  fun w => (o, w, []).

Definition try_catch (body : Handler unit) (handler : JSError -> Handler unit)
  : Handler unit :=
  fun w =>
    match body w with
    | (Return a, w1, e1) => (Return a, w1, e1)
    | (Throw err, w1, e1) =>
        match handler err w1 with
        | (r, w2, e2) => (r, w2, e1 ++ e2)
        end
    end.

Definition emit (e : Effect) : Handler unit :=
  fun w => (Return tt, w, [e]).

Definition gets {A} (f : World -> A) : Handler A :=
  fun w => (Return (f w), w, []).

Definition modify (f : World -> World) : Handler unit :=
  fun w => (Return tt, f w, []).

Declare Scope handler_scope.
Delimit Scope handler_scope with handler.
Bind Scope handler_scope with Handler.

Notation "'let!' x ':=' m 'in' k" := (bind m (fun x => k))
  (at level 10, x name, m at level 100, k at level 200) : handler_scope.
Notation "m '>>' k" := (bind m (fun _ => k))
  (at level 100, k at level 200, right associativity) : handler_scope.

Local Open Scope handler_scope.

Definition set_waitingClients (f : gmap string nat -> gmap string nat)
  (w : World) : World :=
  mkWorld (f (waitingClients w)) (redis w) (sockets w) (uuid_calls w).

Definition set_redis (f : gmap string RedisHash -> gmap string RedisHash)
  (w : World) : World :=
  mkWorld (waitingClients w) (f (redis w)) (sockets w) (uuid_calls w).

Definition set_sockets (f : gmap nat WebSocket -> gmap nat WebSocket)
  (w : World) : World :=
  mkWorld (waitingClients w) (redis w) (f (sockets w)) (uuid_calls w).

(** ** Primitive operations on the world *)

(** [waitingClients.get(id)]; the keys of the map are the strings that
    [uuidv4] returned, so an absent ([undefined]) identity finds nothing. *)
Definition resolve (w : World) (id : option string) : option nat :=
  match id with
  | Some k => waitingClients w !! k
  | None => None
  end.

Definition waitingClients_get (id : option string) : Handler (option nat) :=
  gets (fun w => resolve w id).

Definition waitingClients_set (id : string) (ws : nat) : Handler unit :=
  modify (set_waitingClients <[id := ws]>).

Definition waitingClients_delete (id : option string) : Handler unit :=
  match id with
  | Some k => modify (set_waitingClients (delete k))
  | None => ret tt
  end.

(** The socket object behind a handle.  Handles are handed out by
    [on_connection] and the objects are never freed, so the [None] case is
    not reachable from the server; it is given the behaviour of a property
    read off [undefined]. *)
Definition socket (ws : nat) : Handler WebSocket :=
  let! found := gets (fun w => sockets w !! ws) in
  match found with
  | Some s => ret s
  | None => throw (TypeError "Cannot read properties of undefined")
  end.

(** [ws.send(data)] of the [ws] package, without a callback: it throws while
    the socket is still connecting, writes the frame when the socket is open
    and drops it otherwise. *)
Definition ws_send (ws : nat) (data : string) : Handler unit :=
  let! s := socket ws in
  match readyState s with
  | CONNECTING =>
      throw (Error "WebSocket is not open: readyState 0 (CONNECTING)")
  | OPEN => emit (Send ws data)
  | CLOSING | CLOSED => ret tt
  end.

(** [ws.landmarkSequences.push(item)] *)
Definition landmarkSequences_push (ws : nat) (item : JSValue) : Handler unit :=
  let! s := socket ws in
  modify (set_sockets
            <[ws := mkWebSocket (landmarkSequences s ++ [item]) (readyState s)]>).

(** [ws.landmarkSequences = items] *)
Definition landmarkSequences_assign (ws : nat) (items : list JSValue)
  : Handler unit :=
  let! s := socket ws in
  modify (set_sockets <[ws := mkWebSocket items (readyState s)]>).

Definition amqpChannel_ack (msg : Message) : Handler unit :=
  emit (Ack msg).

Definition amqpChannel_publish (exchange routingKey : string) (body : Buffer)
  (options : Properties) : Handler unit :=
  emit (Publish exchange routingKey body options).

(** [redisClient.hGetAll(key)]: the fields of the hash; the empty object when
    the key does not exist. *)
Definition hash_at (w : World) (key : string) : gmap string string :=
  from_option fields ∅ (redis w !! key).

Definition redis_hGetAll (key : string) : Handler (gmap string string) :=
  gets (fun w => hash_at w key).

(** [redisClient.del(key)] *)
Definition redis_del (key : string) : Handler unit :=
  modify (set_redis (delete key)).

(** [redisClient.expire(key, seconds)]: no effect on a key that does not
    exist. *)
Definition redis_expire (key : string) (seconds : nat) : Handler unit :=
  modify (set_redis (alter (fun h => mkRedisHash (fields h) (Some seconds)) key)).

(** HSET with an argument that is already a string: the field is added to
    the hash under [key], which is created when absent; an expiry already set
    on the key is kept. *)
Definition hset (key field value : string) (db : gmap string RedisHash)
  : gmap string RedisHash :=
  <[key := mkRedisHash (<[field := value]> (from_option fields ∅ (db !! key)))
                       (match db !! key with
                        | Some h => ttl h
                        | None => None
                        end)]> db.

Definition redis_hset_string (key field value : string) : Handler unit :=
  modify (set_redis (hset key field value)).

(** [jobParts.name] on the object that [hGetAll] returns. *)
Definition jobParts_get (jobParts : gmap string string) (name : string)
  : JSValue :=
  match jobParts !! name with
  | Some s => JStr s
  | None => JUndefined
  end.

(** The text that a template literal inserts for [msg.properties.correlationId]. *)
Definition correlationId_text (id : option string) : string :=
  default "undefined" id.

Definition redisKey (id : option string) : string :=
  "job:" +:+ correlationId_text id.

(** ** The text of a buffer

    [Buffer.prototype.toString()] decodes the bytes as UTF-8, and a text
    frame carries the UTF-8 encoding of the string passed to [send].  A
    string of the model stands for its UTF-8 encoding, so decoding keeps the
    bytes of every well-formed sequence and puts the encoding of U+FFFD in
    place of every ill-formed one (each maximal ill-formed subpart gives one
    U+FFFD), while encoding keeps the bytes as they are. *)

Definition byte_in (lo hi : N) (b : Byte.byte) : bool :=
  (lo <=? Byte.to_N b)%N && (Byte.to_N b <=? hi)%N.

Definition byte_is (v : N) (b : Byte.byte) : bool :=
  (Byte.to_N b =? v)%N.

(** U+FFFD in UTF-8. *)
Definition REPLACEMENT : list Byte.byte := [Byte.xef; Byte.xbf; Byte.xbd].

(** The decoder is between sequences, or within one: [seen] holds its bytes
    so far, [more] continuation bytes are needed after the next one, and the
    next one has to lie in [lower..upper]. *)
Inductive Decoder : Type :=
| Clean
| Within (seen : list Byte.byte) (more : nat) (lower upper : N).

(** The first byte of a sequence: what is emitted, and the state after. *)
Definition lead (b : Byte.byte) : list Byte.byte * Decoder :=
  if byte_in 0x00 0x7f b then ([b], Clean)
  else if byte_in 0xc2 0xdf b then ([], Within [b] 0 0x80 0xbf)
  else if byte_in 0xe0 0xef b then
    ([], Within [b] 1 (if byte_is 0xe0 b then 0xa0 else 0x80)
                      (if byte_is 0xed b then 0x9f else 0xbf))
  else if byte_in 0xf0 0xf4 b then
    ([], Within [b] 2 (if byte_is 0xf0 b then 0x90 else 0x80)
                      (if byte_is 0xf4 b then 0x8f else 0xbf))
  else (REPLACEMENT, Clean).

Fixpoint decode (st : Decoder) (bytes : list Byte.byte) : list Byte.byte :=
  match bytes with
  | [] =>
      match st with
      | Clean => []
      | Within _ _ _ _ => REPLACEMENT
      end
  | b :: rest =>
      match st with
      | Clean => fst (lead b) ++ decode (snd (lead b)) rest
      | Within seen more lower upper =>
          if byte_in lower upper b then
            match more with
            | O => (seen ++ [b]) ++ decode Clean rest
            | S more' => decode (Within (seen ++ [b]) more' 0x80 0xbf) rest
            end
          else REPLACEMENT ++ fst (lead b) ++ decode (snd (lead b)) rest
      end
  end.

(** [buffer.toString()] *)
Definition utf8_toString (b : Buffer) : string :=
  String.string_of_list_byte (decode Clean b).

(** The payload of the text frame that [send] writes for a string. *)
Definition utf8_bytes (text : string) : Buffer :=
  String.list_byte_of_string text.

(** The second byte of a three-byte and of a four-byte sequence, by the
    first (table 3-7 of the Unicode standard). *)
Definition three_ok (b1 b2 : Byte.byte) : bool :=
  (byte_is 0xe0 b1 && byte_in 0xa0 0xbf b2)
  || (byte_in 0xe1 0xec b1 && byte_in 0x80 0xbf b2)
  || (byte_is 0xed b1 && byte_in 0x80 0x9f b2)
  || (byte_in 0xee 0xef b1 && byte_in 0x80 0xbf b2).

Definition four_ok (b1 b2 : Byte.byte) : bool :=
  (byte_is 0xf0 b1 && byte_in 0x90 0xbf b2)
  || (byte_in 0xf1 0xf3 b1 && byte_in 0x80 0xbf b2)
  || (byte_is 0xf4 b1 && byte_in 0x80 0x8f b2).

(** Well-formed UTF-8: a concatenation of the byte sequences of that
    table. *)
Fixpoint well_formed (bytes : list Byte.byte) : bool :=
  match bytes with
  | [] => true
  | b1 :: rest1 =>
      if byte_in 0x00 0x7f b1 then well_formed rest1
      else
        match rest1 with
        | [] => false
        | b2 :: rest2 =>
            if byte_in 0xc2 0xdf b1
            then byte_in 0x80 0xbf b2 && well_formed rest2
            else
              match rest2 with
              | [] => false
              | b3 :: rest3 =>
                  if three_ok b1 b2
                  then byte_in 0x80 0xbf b3 && well_formed rest3
                  else
                    match rest3 with
                    | [] => false
                    | b4 :: rest4 =>
                        four_ok b1 b2 && byte_in 0x80 0xbf b3
                        && byte_in 0x80 0xbf b4 && well_formed rest4
                    end
              end
        end
  end.

(** ** The browser client: its state

    The React component [App] of the same file.  Of its state, the part that
    the capture loop and the socket listener read and write is kept:
    [recordingStateRef.current], [sequenceRef.current], [wsRef.current] and
    [uiMode] in [Recorder]; [notification], [detectedTone], [subtitleText],
    [isPlayingAudio] and [subtitleTimeoutRef.current] in [UI].  Drawing on the
    canvas and the markup are left out.  A timer is a flag that says whether
    it is pending; the passing of time is the event that it fires. *)

Inductive Mode : Type := mode_auto | mode_manual.

Record Recorder : Type := mkRecorder {
  isRecording : bool;
  mode : Mode;
  startTimeout : bool;
  stopTimeout : bool;
  tone : string;
  uiMode : Mode;
  sequenceRef : list JSValue;
  wsRef : option ReadyState
}.

(** [useRef]/[useState] at mount, before the socket is created. *)
Definition initial_recorder : Recorder :=
  mkRecorder false mode_auto false false "Casual" mode_auto [] None.

Definition set_isRecording (b : bool) (r : Recorder) : Recorder :=
  mkRecorder b (mode r) (startTimeout r) (stopTimeout r) (tone r) (uiMode r)
             (sequenceRef r) (wsRef r).

Definition set_mode (m : Mode) (r : Recorder) : Recorder :=
  mkRecorder (isRecording r) m (startTimeout r) (stopTimeout r) (tone r)
             (uiMode r) (sequenceRef r) (wsRef r).

Definition set_startTimeout (b : bool) (r : Recorder) : Recorder :=
  mkRecorder (isRecording r) (mode r) b (stopTimeout r) (tone r) (uiMode r)
             (sequenceRef r) (wsRef r).

Definition set_stopTimeout (b : bool) (r : Recorder) : Recorder :=
  mkRecorder (isRecording r) (mode r) (startTimeout r) b (tone r) (uiMode r)
             (sequenceRef r) (wsRef r).

Definition set_tone (t : string) (r : Recorder) : Recorder :=
  mkRecorder (isRecording r) (mode r) (startTimeout r) (stopTimeout r) t
             (uiMode r) (sequenceRef r) (wsRef r).

Definition set_uiMode (m : Mode) (r : Recorder) : Recorder :=
  mkRecorder (isRecording r) (mode r) (startTimeout r) (stopTimeout r) (tone r)
             m (sequenceRef r) (wsRef r).

Definition set_sequenceRef (l : list JSValue) (r : Recorder) : Recorder :=
  mkRecorder (isRecording r) (mode r) (startTimeout r) (stopTimeout r) (tone r)
             (uiMode r) l (wsRef r).

(** [wsRef.current && wsRef.current.readyState === WebSocket.OPEN] *)
Definition wsRef_open (r : Recorder) : bool :=
  match wsRef r with
  | Some state => is_OPEN state
  | None => false
  end.

(** A landmark of the holistic model: three coordinates and, for the pose,
    a visibility, which may be missing. *)
Record Landmark : Type := mkLandmark {
  x : float;
  y : float;
  z : float;
  visibility : option float
}.

(** The fields of [results] that [onResults] reads; each is an array or
    [undefined]. *)
Record Results : Type := mkResults {
  poseLandmarks : option (list Landmark);
  leftHandLandmarks : option (list Landmark);
  rightHandLandmarks : option (list Landmark);
  faceLandmarks : option (list Landmark)
}.

(** [res => [res.x, res.y, res.z, res.visibility]] *)
Definition pose_point (res : Landmark) : list JSValue :=
  [JNum (x res); JNum (y res); JNum (z res);
   match visibility res with
   | Some v => JNum v
   | None => JUndefined
   end].

(** [res => [res.x, res.y, res.z]] *)
Definition point (res : Landmark) : list JSValue :=
  [JNum (x res); JNum (y res); JNum (z res)].

(** [l ? l.map(f) : []] *)
Definition map_or_empty (f : Landmark -> list JSValue)
  (l : option (list Landmark)) : list (list JSValue) :=
  match l with
  | Some l => map f l
  | None => []
  end.

(** [const landmarks = [...pose, ...left, ...right, ...face].flat()]: the
    points are arrays of numbers, so flattening one level concatenates
    them. *)
Definition landmarks (results : Results) : list JSValue :=
  concat (map_or_empty pose_point (poseLandmarks results)
          ++ map_or_empty point (leftHandLandmarks results)
          ++ map_or_empty point (rightHandLandmarks results)
          ++ map_or_empty point (faceLandmarks results)).

(** [leftHand.length > 0 || rightHand.length > 0], with
    [leftHand = results.leftHandLandmarks || []]. *)
Definition handsVisible (results : Results) : bool :=
  (0 <? length (default [] (leftHandLandmarks results)))%nat
  || (0 <? length (default [] (rightHandLandmarks results)))%nat.

Definition sequenceBuffer : nat := 30.

(** [setNotification]'s argument when it is not [null]. *)
Record Toast : Type := mkToast {
  toast_message : JSValue;
  toast_type : string
}.

Record UI : Type := mkUI {
  notification : option Toast;
  detectedTone : JSValue;
  subtitleText : JSValue;
  isPlayingAudio : bool;
  subtitleTimeoutRef : option nat
}.

Definition initial_UI : UI :=
  mkUI None (JStr "N/A") (JStr EmptyString) false None.

(** What the socket listener does besides setting state: it creates an audio
    element for a source (attaching its [onloadedmetadata] and [onended]
    listeners), starts it, and cancels a timer. *)
Inductive ClientEffect : Type :=
| NewAudio (src : string)
| ClearTimeout (id : nat)
| AudioPlay.

Definition Action (A : Type) : Type :=
  UI -> Outcome A * UI * list ClientEffect.

Definition act_ret {A} (a : A) : Action A :=
  fun ui => (Return a, ui, []).

Definition act_bind {A B} (m : Action A) (k : A -> Action B) : Action B :=
  fun ui =>
    match m ui with
    | (Return a, ui1, e1) =>
        match k a ui1 with
        | (r, ui2, e2) => (r, ui2, e1 ++ e2)
        end
    | (Throw err, ui1, e1) => (Throw err, ui1, e1)
    end.

Definition act_lift {A} (o : Outcome A) : Action A :=
  fun ui => (o, ui, []).

Definition act_emit (e : ClientEffect) : Action unit :=
  fun ui => (Return tt, ui, [e]).

Definition act_gets {A} (f : UI -> A) : Action A :=
  fun ui => (Return (f ui), ui, []).

Definition act_modify (f : UI -> UI) : Action unit :=
  fun ui => (Return tt, f ui, []).

Declare Scope action_scope.
Delimit Scope action_scope with action.
Bind Scope action_scope with Action.

Notation "'let*' x ':=' m 'in' k" := (act_bind m (fun x => k))
  (at level 10, x name, m at level 100, k at level 200) : action_scope.
Notation "m '>>>' k" := (act_bind m (fun _ => k))
  (at level 100, k at level 200, right associativity) : action_scope.

Definition setNotification (n : option Toast) (ui : UI) : UI :=
  mkUI n (detectedTone ui) (subtitleText ui) (isPlayingAudio ui)
       (subtitleTimeoutRef ui).

Definition setDetectedTone (v : JSValue) (ui : UI) : UI :=
  mkUI (notification ui) v (subtitleText ui) (isPlayingAudio ui)
       (subtitleTimeoutRef ui).

Definition setSubtitleText (v : JSValue) (ui : UI) : UI :=
  mkUI (notification ui) (detectedTone ui) v (isPlayingAudio ui)
       (subtitleTimeoutRef ui).

Definition setIsPlayingAudio (b : bool) (ui : UI) : UI :=
  mkUI (notification ui) (detectedTone ui) (subtitleText ui) b
       (subtitleTimeoutRef ui).

(** [a && b], where evaluating [b] may throw. *)
Definition js_and (a : JSValue) (b : Outcome JSValue) : Outcome JSValue :=
  if ToBoolean a then b else Return a.

(** ** The batches of the two-frame scenario *)

Definition vector (a b c d : float) : JSValue :=
  JArr [JNum a; JNum b; JNum c; JNum d].

(** [[[0.1,0.2,0.0,1.0]]] *)
Definition batch1 : JSValue := JArr [vector 0.1 0.2 0.0 1.0].
(** [[[0.3,0.4,0.0,1.0]]] *)
Definition batch2 : JSValue := JArr [vector 0.3 0.4 0.0 1.0].

(** ** The text of a number

    [Number::toString] of ECMAScript in radix 10, which template literals,
    the Redis client and [JSON.stringify] apply to a number: the shortest
    decimal that reads back as the same double, and among the shortest the
    closest to it, written without an exponent when its decimal point falls
    within 21 digits before or 6 zeros after.  A positive finite double is
    handled as the integers [m] and [e] of its value [m * 2^e]. *)

Module Decimal.

Local Open Scope Z_scope.

(** [a * 10^p] against [b * 2^q]. *)
Definition compare_scaled (a p b q : Z) : comparison :=
  Z.compare (a * 10 ^ Z.max p 0 * 2 ^ Z.max (- q) 0)
            (b * 2 ^ Z.max q 0 * 10 ^ Z.max (- p) 0).

(** The largest [s] with [s * 10^p <= b * 2^q]. *)
Definition floor_scaled (p b q : Z) : Z :=
  (b * 2 ^ Z.max q 0 * 10 ^ Z.max (- p) 0)
  / (2 ^ Z.max (- q) 0 * 10 ^ Z.max p 0).

(** Whether [s * 10^p] reads back as the double [m * 2^e]: in units of
    [2^(e-2)] the double is [4m], and the decimals that round to it lie
    between the midpoints to its two neighbours, which belong to it when [m]
    is even. *)
Definition rounds_to (m e s p : Z) : bool :=
  let below := if (m =? 2 ^ 52) && (-1074 <? e) then 1 else 2 in
  let low := compare_scaled s p (4 * m - below) (e - 2) in
  let high := compare_scaled s p (4 * m + 2) (e - 2) in
  match low, high with
  | Gt, Lt => true
  | Eq, Lt | Gt, Eq => Z.even m
  | _, _ => false
  end.

(** The [n] with [10^(n-1) <= m * 2^e < 10^n], from an estimate below it. *)
Fixpoint magnitude_from (fuel : nat) (m e n : Z) : Z :=
  match fuel with
  | O => n
  | S fuel =>
      match compare_scaled 1 n m e with
      | Gt => n
      | _ => magnitude_from fuel m e (n + 1)
      end
  end.

Definition magnitude (m e : Z) : Z :=
  magnitude_from 8 m e ((Z.log2 m + e) * 30103 / 100000 - 2).

Fixpoint strip_zeros (fuel : nat) (s p : Z) : Z * Z :=
  match fuel with
  | O => (s, p)
  | S fuel =>
      if (0 <? s) && (s mod 10 =? 0) then strip_zeros fuel (s / 10) (p + 1)
      else (s, p)
  end.

(** The shortest decimal [s * 10^p] that reads back as [m * 2^e]: [k]
    digits are tried, then one more; seventeen always do. *)
Fixpoint shortest (fuel : nat) (m e n k : Z) : Z * Z :=
  let p := n - k in
  let s := floor_scaled p m e in
  match fuel with
  | O => (s, p)
  | S fuel =>
      match rounds_to m e s p, rounds_to m e (s + 1) p with
      | true, false => (s, p)
      | false, true => (s + 1, p)
      | true, true =>
          match compare_scaled (2 * s + 1) p (2 * m) e with
          | Gt => (s, p)
          | Lt => (s + 1, p)
          | Eq => if Z.even s then (s, p) else (s + 1, p)
          end
      | false, false => shortest fuel m e n (k + 1)
      end
  end.

Definition zeros (n : Z) : string :=
  String.concat EmptyString (replicate (Z.to_nat n) "0"%string).

Definition take_string (n : Z) (s : string) : string :=
  String.substring 0 (Z.to_nat n) s.

Definition drop_string (n : Z) (s : string) : string :=
  String.substring (Z.to_nat n) (String.length s - Z.to_nat n) s.

Definition positive_toString (m e : Z) : string :=
  let '(s, p) := shortest 17 m e (magnitude m e) 1 in
  let '(s, p) := strip_zeros 400 s p in
  let digits := pretty s in
  let k := Z.of_nat (String.length digits) in
  let n := p + k in
  if (k <=? n) && (n <=? 21) then digits +:+ zeros (n - k)
  else if (0 <? n) && (n <=? 21) then
    take_string n digits +:+ "." +:+ drop_string n digits
  else if (-6 <? n) && (n <=? 0) then "0." +:+ zeros (- n) +:+ digits
  else
    let exponent :=
      (if 0 <=? n - 1 then "+" else "-") +:+ pretty (Z.abs (n - 1)) in
    if k =? 1 then digits +:+ "e" +:+ exponent
    else take_string 1 digits +:+ "." +:+ drop_string 1 digits
         +:+ "e" +:+ exponent.

Definition Number_toString (x : float) : string :=
  match Prim2SF x with
  | S754_nan => "NaN"
  | S754_zero _ => "0"
  | S754_infinity false => "Infinity"
  | S754_infinity true => "-Infinity"
  | S754_finite sign m e =>
      (if sign then "-" else EmptyString) +:+ positive_toString (Z.pos m) e
  end.

End Decimal.

(** ** A concrete platform

    An instance of the platform parameters on which the handlers can be run.
    Strings stand for their UTF-8 encoding; [Demo.Buffer_toString] is the
    UTF-8 decoder and [Demo.Buffer_from] the encoder.  [Demo.JSON_parse] is
    a table over the texts that the examples use, [Demo.Number_toString] and
    [Demo.JSON_stringify] print numbers and values the way
    [Number.prototype.toString] and [JSON.stringify] do, and [Demo.uuidv4]
    numbers the identities. *)

Module Demo.

(** A JSON text written with single quotes in place of double quotes. *)
Fixpoint js (text : string) : string :=
  match text with
  | EmptyString => EmptyString
  | String c rest =>
      String (if Ascii.eqb c (Ascii.ascii_of_nat 39)
              then Ascii.ascii_of_nat 34 else c)
             (js rest)
  end.

Definition append1 : string :=
  js "{'type':'signing_data','sequence':[[0.1,0.2,0.0,1.0]]}".
Definition append2 : string :=
  js "{'type':'signing_data','sequence':[[0.3,0.4,0.0,1.0]]}".
Definition end_formal : string :=
  js "{'type':'end_of_sentence','tone':'Formal'}".
Definition end_plain : string :=
  js "{'type':'end_of_sentence'}".
Definition failed_hello : string :=
  js "{'sentence':'hello'}".

Definition table : list (string * JSValue) :=
  [ (append1, JObj [("type", JStr "signing_data"); ("sequence", batch1)]);
    (append2, JObj [("type", JStr "signing_data"); ("sequence", batch2)]);
    (end_formal, JObj [("type", JStr "end_of_sentence");
                       ("tone", JStr "Formal")]);
    (end_plain, JObj [("type", JStr "end_of_sentence")]);
    (failed_hello, JObj [("sentence", JStr "hello")]) ].

Fixpoint find (text : string) (t : list (string * JSValue))
  : option JSValue :=
  match t with
  | [] => None
  | (k, v) :: rest => if String.eqb k text then Some v else find text rest
  end.

Definition JSON_parse (text : string) : option JSValue := find text table.

Definition Number_toString (n : float) : string := Decimal.Number_toString n.

(** [QuoteJSONString]: the quote, the backslash and the control characters
    are escaped. *)
Definition hex (n : nat) : string :=
  String.substring n 1 "0123456789abcdef".

Definition escape (c : Ascii.ascii) : string :=
  let n := Ascii.nat_of_ascii c in
  let backslash := String (Ascii.ascii_of_nat 92) EmptyString in
  if (n =? 34)%nat || (n =? 92)%nat then backslash +:+ String c EmptyString
  else if (n =? 8)%nat then backslash +:+ "b"
  else if (n =? 9)%nat then backslash +:+ "t"
  else if (n =? 10)%nat then backslash +:+ "n"
  else if (n =? 12)%nat then backslash +:+ "f"
  else if (n =? 13)%nat then backslash +:+ "r"
  else if (n <? 32)%nat then
    backslash +:+ "u00" +:+ hex (n / 16) +:+ hex (n mod 16)
  else String c EmptyString.

Fixpoint quote_chars (s : string) : string :=
  match s with
  | EmptyString => EmptyString
  | String c rest => escape c +:+ quote_chars rest
  end.

Definition quote (s : string) : string := dquote +:+ quote_chars s +:+ dquote.

(** [JSON.stringify] of a value that is not [undefined] itself: a number
    that is not finite is written [null], as is [undefined] in an array; a
    property whose value is [undefined] is left out. *)
Fixpoint JSON_stringify (v : JSValue) : string :=
  match v with
  | JUndefined | JNull => "null"
  | JBool true => "true"
  | JBool false => "false"
  | JNum n =>
      match Prim2SF n with
      | S754_nan | S754_infinity _ => "null"
      | _ => Number_toString n
      end
  | JStr s => quote s
  | JArr elems => "[" +:+ String.concat "," (map JSON_stringify elems) +:+ "]"
  | JObj props =>
      "{" +:+ String.concat ","
                (flat_map (fun kv =>
                             match kv with
                             | (_, JUndefined) => []
                             | (k, v) => [quote k +:+ ":" +:+ JSON_stringify v]
                             end) props)
          +:+ "}"
  end.

Definition Buffer_from (s : string) : Buffer :=
  map Ascii.byte_of_ascii (String.list_ascii_of_string s).

Definition Buffer_toString (b : Buffer) : string := utf8_toString b.

Definition uuidv4 (n : nat) : string := "uuid-" +:+ pretty n.

(** Worlds and messages of the examples.  Socket [0] is the only socket;
    [uuid-0] is the identity of its job. *)

Definition connected : World :=
  mkWorld ∅ ∅ {[0 := mkWebSocket [] OPEN]} 0.

Definition seeded : gmap string RedisHash :=
  {[ "job:uuid-0" := mkRedisHash {["user_tone" := "Formal"]} (Some 300) ]}.

Definition waiting : World :=
  mkWorld {["uuid-0" := 0]} seeded {[0 := mkWebSocket [] OPEN]} 1.

Definition hung_up : World :=
  mkWorld {["uuid-0" := 0]} seeded {[0 := mkWebSocket [] CLOSED]} 1.

Definition recording : World :=
  mkWorld ∅ ∅ {[0 := mkWebSocket [batch1] OPEN]} 0.

(** A record with both fields and no tone. *)
Definition untoned : World :=
  mkWorld ∅
    {[ "job:uuid-0" :=
         mkRedisHash {["raw_gloss" := "HELLO"; "dominant_emotion" := "happy"]}
                     (Some 300) ]}
    ∅ 0.

Definition result_message : Message :=
  mkMessage (Buffer_from (js "{'audioData':'UklGRg==','sentence':'hello'}"))
            (mkProperties (Some "uuid-0") None).

Definition dead_letter : Message :=
  mkMessage (Buffer_from failed_hello) (mkProperties (Some "uuid-0") None).

Definition notification : Message :=
  mkMessage [] (mkProperties (Some "uuid-0") (Some RESULTS_QUEUE)).

End Demo.

(** ** More cases on the concrete platform *)

Module Cases.

(** The frames that the server writes to a client. *)
Definition failure_hello : JSValue :=
  JObj [("fallbackText",
         JStr ("Audio unavailable. Translation: " +:+ dquote
               +:+ "hello" +:+ dquote));
        ("conversationTone", JStr "Error")].

Definition error_frame : JSValue :=
  JObj [("error", JStr "An internal error occurred.")].

Definition success_frame : JSValue :=
  JObj [("audioData", JStr "UklGRg=="); ("sentence", JStr "hello")].

Definition table : list (string * JSValue) :=
  map (fun v => (Demo.JSON_stringify v, v))
      [failure_hello; error_frame; success_frame].

(** [Demo.JSON_parse], which knows the frames of the client, extended to the
    frames of the server. *)
Definition JSON_parse (text : string) : option JSValue :=
  match Demo.find text table with
  | Some v => Some v
  | None => Demo.JSON_parse text
  end.

(** A result whose content is the byte [ff] followed by the letter [A]. *)
Definition ill_formed_result : Message :=
  mkMessage [Byte.xff; Byte.x41] (mkProperties (Some "uuid-0") None).

(** Dead letters whose payload is not JSON, and is JSON without a
    sentence. *)
Definition garbled_letter : Message :=
  mkMessage (Demo.Buffer_from "hello") (mkProperties (Some "uuid-0") None).

Definition sentenceless_letter : Message :=
  mkMessage (Demo.Buffer_from Demo.end_plain)
            (mkProperties (Some "uuid-0") None).

(** A complete record whose three fields are empty strings. *)
Definition blank : World :=
  mkWorld ∅
    {[ "job:uuid-0" :=
         mkRedisHash {["raw_gloss" := EmptyString;
                       "dominant_emotion" := EmptyString;
                       "user_tone" := EmptyString]}
                     (Some 300) ]}
    ∅ 0.

Definition hand : Landmark := mkLandmark 0.5 0.5 0 None.
Definition hands_up : Results := mkResults None (Some [hand]) None None.
Definition no_hands : Results := mkResults None None None None.

Definition manual_open : Recorder :=
  mkRecorder false mode_manual false false "Formal" mode_manual []
             (Some OPEN).

Definition almost_full : Recorder :=
  mkRecorder true mode_manual false false "Formal" mode_manual
             (replicate 29 (JArr [])) (Some CLOSED).

Definition stopping : Recorder :=
  mkRecorder true mode_auto false true "Casual" mode_auto [] (Some OPEN).

Definition with_toast : UI :=
  mkUI (Some (mkToast (JStr "old") "warning")) (JStr "N/A")
       (JStr EmptyString) false (Some 7).

End Cases.

(** The world at start-up: nobody waits, the store is empty, no socket. *)
Definition initial_world : World := mkWorld ∅ ∅ ∅ 0.

(** ** The server *)

Section Server.

(** [JSON.parse]: [None] stands for the [SyntaxError] it throws. *)
Variable JSON_parse : string -> option JSValue.
Variable JSON_stringify : JSValue -> string.
Variable Number_toString : float -> string.
Variable Buffer_from : string -> Buffer.
Variable Buffer_toString : Buffer -> string.
(** [uuidv4 n] is what the [n]-th call of [uuidv4()] returns. *)
Variable uuidv4 : nat -> string.

Definition parse (text : string) : Handler JSValue :=
  match JSON_parse text with
  | Some v => ret v
  | None => throw SyntaxError
  end.

Definition uuidv4_call : Handler string :=
  fun w =>
    (Return (uuidv4 (uuid_calls w)),
     mkWorld (waitingClients w) (redis w) (sockets w) (S (uuid_calls w)),
     []).

(** [`${v}`] *)
Fixpoint ToString (v : JSValue) : string :=
  match v with
  | JUndefined => "undefined"
  | JNull => "null"
  | JBool true => "true"
  | JBool false => "false"
  | JNum n => Number_toString n
  | JStr s => s
  | JArr elems =>
      String.concat ","
        (map (fun e => match e with
                       | JUndefined | JNull => EmptyString
                       | _ => ToString e
                       end) elems)
  | JObj _ => "[object Object]"
  end.

(** How the Redis client encodes a command argument: a string goes as it
    is, a number as its decimal text, anything else is refused. *)
Definition redis_argument (v : JSValue) : Outcome string :=
  match v with
  | JStr s => Return s
  | JNum n => Return (Number_toString n)
  | _ => Throw (TypeError "Invalid argument type")
  end.

(** [redisClient.hSet(key, field, value)] *)
Definition redis_hSet (key field : string) (value : JSValue) : Handler unit :=
  let! arg := lift (redis_argument value) in
  redis_hset_string key field arg.

(** [wss.on('connection', ...)]: a new socket object, open, with an empty
    buffer. *)
Definition on_connection : Handler nat :=
  let! ws := gets (fun w => fresh (dom (sockets w))) in
  modify (set_sockets <[ws := mkWebSocket [] OPEN]>) >>
  ret ws.

(** The connection closes: the [ws] package sets [readyState] to [CLOSED]
    and emits ['close'], whose listener only logs. *)
Definition on_close (ws : nat) : Handler unit :=
  let! s := socket ws in
  modify (set_sockets <[ws := mkWebSocket (landmarkSequences s) CLOSED]>).

(** [function handleResultMessage(msg)] *)
Definition handleResultMessage (msg : option Message) : Handler unit :=
  match msg with
  | None => ret tt
  | Some msg =>
      amqpChannel_ack msg >>
      let correlationId := correlationId (properties msg) in
      let! client := waitingClients_get correlationId in
      match client with
      | None => ret tt
      | Some client =>
          let! c := socket client in
          if is_OPEN (readyState c) then
            ws_send client (Buffer_toString (content msg)) >>
            waitingClients_delete correlationId
          else ret tt
      end
  end.

(** [function handleDeadLetterMessage(msg)] *)
Definition handleDeadLetterMessage (msg : option Message) : Handler unit :=
  match msg with
  | None => ret tt
  | Some msg =>
      amqpChannel_ack msg >>
      let correlationId := correlationId (properties msg) in
      let! client := waitingClients_get correlationId in
      match client with
      | None => ret tt
      | Some client =>
          let! c := socket client in
          if is_OPEN (readyState c) then
            let! failedJob := parse (Buffer_toString (content msg)) in
            let! sentence := lift (get_prop failedJob "sentence") in
            ws_send client
              (JSON_stringify
                 (JObj [("fallbackText",
                         JStr ("Audio unavailable. Translation: " +:+ dquote
                               +:+ ToString sentence +:+ dquote));
                        ("conversationTone", JStr "Error")])) >>
            waitingClients_delete correlationId
          else ret tt
      end
  end.

(** [async function handleAggregationNotification(msg)] *)
Definition handleAggregationNotification (msg : option Message)
  : Handler unit :=
  match msg with
  | None => ret tt
  | Some msg =>
      let correlationId := correlationId (properties msg) in
      let redisKey := redisKey correlationId in
      try_catch
        (let! jobParts := redis_hGetAll redisKey in
         let rawGloss := jobParts_get jobParts "raw_gloss" in
         let dominantEmotion := jobParts_get jobParts "dominant_emotion" in
         if not_undefined rawGloss && not_undefined dominantEmotion then
           let next_job_payload :=
             JObj [("raw_gloss", rawGloss);
                   ("dominant_emotion", dominantEmotion);
                   ("user_tone",
                    js_or (jobParts_get jobParts "user_tone") (JStr "Casual"))]
           in
           amqpChannel_publish JOBS_EXCHANGE "gemini_task"
             (Buffer_from (JSON_stringify next_job_payload))
             (mkProperties correlationId (replyTo (properties msg))) >>
           redis_del redisKey
         else ret tt)
        (fun err => ret tt) >>
      amqpChannel_ack msg
  end.

(** [ws.on('message', async (message) => ...)], run to its end before
    anything else is handled.  The job payload refers to the array object
    [ws.landmarkSequences] itself, which is serialised when [publish] runs;
    the buffer is therefore read at that point.  What the handler does when
    frames are handled while it awaits the store is given by [begin] and
    [resume] below. *)
Definition on_message (ws : nat) (message : string) : Handler unit :=
  try_catch
    (let! data := parse message in
     let! type := lift (get_prop data "type") in
     if strict_eq_str type "signing_data" then
       let! sequence := lift (get_prop data "sequence") in
       landmarkSequences_push ws sequence
     else if strict_eq_str type "end_of_sentence" then
       let! s := socket ws in
       (if (0 <? length (landmarkSequences s))%nat then
          let! correlationId := uuidv4_call in
          let! tone := lift (get_prop data "tone") in
          let user_tone := js_or tone (JStr "Casual") in
          waitingClients_set correlationId ws >>
          redis_hSet (redisKey (Some correlationId)) "user_tone" user_tone >>
          redis_expire (redisKey (Some correlationId)) 300 >>
          let! s' := socket ws in
          let jobPayload :=
            JObj [("landmark_data", JArr (landmarkSequences s'));
                  ("user_tone", user_tone)]
          in
          amqpChannel_publish JOBS_EXCHANGE "recognition_task"
            (Buffer_from (JSON_stringify jobPayload))
            (mkProperties (Some correlationId) (Some RESULTS_QUEUE))
        else ret tt) >>
       landmarkSequences_assign ws []
     else ret tt)
    (fun error =>
       ws_send ws
         (JSON_stringify (JObj [("error", JStr "An internal error occurred.")]))).

(** A recognition worker writing one field of the record of job [id]. *)
Definition worker_hSet (id field value : string) : Handler unit :=
  redis_hset_string (redisKey (Some id)) field value.

(** Handlers run one after the other, as the event loop runs them; an
    exception that escapes a handler ends the run. *)
Fixpoint run_all (hs : list (Handler unit)) : Handler unit :=
  match hs with
  | [] => ret tt
  | h :: rest => h >> run_all rest
  end.

(** ** The message handler between its awaits

    [on_message] above is the run of the handler when nothing else is handled
    while it awaits the store.  Here the handler is cut at its two awaits
    ([hSet], [expire]), so that frames can be handled in between.  What the
    cut brings out is that [jobPayload.landmark_data] is the array object
    [ws.landmarkSequences] itself, serialised only when [publish] runs:
    - the array objects of a socket are numbered: number 0 is created at
      the connection, and each [ws.landmarkSequences = []] creates the next;
      the socket's buffer in the world is the contents of its current array,
      and the arrays it no longer refers to are kept with their contents;
    - a suspended handler holds the number of the array its payload refers
      to;
    - the store applies a command when it is issued, and replies in the
      order of the commands: a reply resumes the oldest suspended
      handler. *)

Inductive Stage : Type := AwaitsHSet | AwaitsExpire.

Record Suspended : Type := mkSuspended {
  job_ws : nat;
  job_id : string;
  job_array : nat;
  job_tone : JSValue;
  job_stage : Stage
}.

Record Async : Type := mkAsync {
  now : World;
  generations : gmap nat nat;
  detached : gmap (nat * nat) (list JSValue);
  awaiting : list Suspended
}.

(** A world in which no handler is suspended and every socket still has
    its first array. *)
Definition settled (w : World) : Async := mkAsync w ∅ ∅ [].

Definition generation (a : Async) (ws : nat) : nat :=
  default 0 (generations a !! ws).

(** The contents of array [g] of socket [ws]. *)
Definition array_contents (a : Async) (ws g : nat) : list JSValue :=
  if (g =? generation a ws)%nat
  then match sockets (now a) !! ws with
       | Some s => landmarkSequences s
       | None => []
       end
  else default [] (detached a !! (ws, g)).

Definition AsyncHandler (A : Type) : Type :=
  Async -> Outcome A * Async * list Effect.

Definition async_ret {A} (x : A) : AsyncHandler A :=
  fun a => (Return x, a, []).

Definition async_bind {A B} (m : AsyncHandler A) (k : A -> AsyncHandler B)
  : AsyncHandler B :=
  fun a =>
    match m a with
    | (Return x, a1, e1) =>
        match k x a1 with
        | (r, a2, e2) => (r, a2, e1 ++ e2)
        end
    | (Throw err, a1, e1) => (Throw err, a1, e1)
    end.

Definition async_try_catch (body : AsyncHandler unit)
  (handler : JSError -> AsyncHandler unit) : AsyncHandler unit :=
  fun a =>
    match body a with
    | (Return x, a1, e1) => (Return x, a1, e1)
    | (Throw err, a1, e1) =>
        match handler err a1 with
        | (r, a2, e2) => (r, a2, e1 ++ e2)
        end
    end.

(** A step of the handler that only concerns the world. *)
Definition in_world {A} (h : Handler A) : AsyncHandler A :=
  fun a =>
    match h (now a) with
    | (o, w, e) => (o, mkAsync w (generations a) (detached a) (awaiting a), e)
    end.

Declare Scope async_scope.
Delimit Scope async_scope with async.
Bind Scope async_scope with AsyncHandler.

Notation "'let&' x ':=' m 'in' k" := (async_bind m (fun x => k))
  (at level 10, x name, m at level 100, k at level 200) : async_scope.
Notation "m '>&' k" := (async_bind m (fun _ => k))
  (at level 100, k at level 200, right associativity) : async_scope.

(** [await]: the handler is put behind those that are already waiting. *)
Definition suspend (k : Suspended) : AsyncHandler unit :=
  fun a =>
    (Return tt,
     mkAsync (now a) (generations a) (detached a) (awaiting a ++ [k]), []).

(** [ws.landmarkSequences = []]: the socket gets a new, empty array; the
    array it referred to keeps its contents. *)
Definition rebind (ws : nat) : AsyncHandler unit :=
  (let& s := in_world (socket ws) in
   fun a =>
     (Return tt,
      mkAsync (set_sockets <[ws := mkWebSocket [] (readyState s)]> (now a))
              (<[ws := S (generation a ws)]> (generations a))
              (<[(ws, generation a ws) := landmarkSequences s]> (detached a))
              (awaiting a),
      []))%async.

(** ** The browser client: its handlers

    The properties that the listener reads off a frame ([audioData],
    [sentence], [conversationTone], [fallbackText], [error]) are no members
    of a built-in prototype either, so [get_prop] reads them as the language
    does. *)

Definition client_parse (text : string) : Action JSValue :=
  match JSON_parse text with
  | Some v => act_ret v
  | None => fun ui => (Throw SyntaxError, ui, [])
  end.

(** [wsRef.current.onmessage = (event) => ...], on [event.data]. *)
Definition onmessage (event_data : string) : Action unit :=
  (let* data := client_parse event_data in
   act_modify (setNotification None) >>>
   let* audioData := act_lift (get_prop data "audioData") in
   let* playable := act_lift (js_and audioData (get_prop data "sentence")) in
   if ToBoolean playable then
     let audioSrc := "data:audio/wav;base64," +:+ ToString audioData in
     act_emit (NewAudio audioSrc) >>>
     act_modify (setIsPlayingAudio true) >>>
     let* sentence := act_lift (get_prop data "sentence") in
     act_modify (setSubtitleText sentence) >>>
     let* pending := act_gets subtitleTimeoutRef in
     match pending with
     | Some id => act_emit (ClearTimeout id)
     | None => act_ret tt
     end >>>
     act_emit AudioPlay
   else
     let* conversationTone := act_lift (get_prop data "conversationTone") in
     if ToBoolean conversationTone then
       act_modify (setDetectedTone conversationTone)
     else
       let* fallbackText := act_lift (get_prop data "fallbackText") in
       if ToBoolean fallbackText then
         act_modify (setNotification (Some (mkToast fallbackText "warning")))
       else
         let* error := act_lift (get_prop data "error") in
         if ToBoolean error then
           act_modify (setNotification (Some (mkToast error "error")))
         else act_ret tt)%action.

(** [JSON.stringify({ type: 'end_of_sentence', tone: ... })] *)
Definition end_of_sentence_frame (t : string) : string :=
  JSON_stringify (JObj [("type", JStr "end_of_sentence"); ("tone", JStr t)]).

(** [JSON.stringify({ type: 'signing_data', sequence: sequenceRef.current })] *)
Definition signing_data_frame (frames : list JSValue) : string :=
  JSON_stringify (JObj [("type", JStr "signing_data"); ("sequence", JArr frames)]).

(** The [mode === 'auto'] block of [onResults]: arming and cancelling the two
    timers. *)
Definition auto_timers (results : Results) (r : Recorder) : Recorder :=
  if handsVisible results && negb (isRecording r) then
    let r := set_stopTimeout false r in
    if negb (startTimeout r) then set_startTimeout true r else r
  else if negb (handsVisible results) && isRecording r then
    let r := set_startTimeout false r in
    if negb (stopTimeout r) then set_stopTimeout true r else r
  else r.

(** [const onResults = (results) => ...]: the new state and the frames written
    to the socket. *)
Definition onResults (results : Results) (r : Recorder)
  : Recorder * list string :=
  let r :=
    match mode r with
    | mode_auto => auto_timers results r
    | mode_manual => r
    end in
  let r :=
    if isRecording r
    then set_sequenceRef (sequenceRef r ++ [JArr (landmarks results)]) r
    else r in
  if (length (sequenceRef r) =? sequenceBuffer)%nat then
    (set_sequenceRef [] r,
     if wsRef_open r then [signing_data_frame (sequenceRef r)] else [])
  else (r, []).

(** The callback of the start timer, 500 ms after it was armed. *)
Definition startTimeout_fires (r : Recorder) : Recorder :=
  set_startTimeout false (set_isRecording true r).

(** The callback of the stop timer, 1500 ms after it was armed. *)
Definition stopTimeout_fires (r : Recorder) : Recorder * list string :=
  let r := set_isRecording false r in
  (set_stopTimeout false r,
   if wsRef_open r then [end_of_sentence_frame (tone r)] else []).

(** [const handleModeToggle = () => ...] *)
Definition handleModeToggle (r : Recorder) : Recorder :=
  let newMode :=
    match uiMode r with
    | mode_auto => mode_manual
    | mode_manual => mode_auto
    end in
  set_isRecording false (set_uiMode newMode (set_mode newMode r)).

(** [const handleManualStart = () => ...] *)
Definition handleManualStart (r : Recorder) : Recorder :=
  match mode r with
  | mode_manual => set_isRecording true r
  | mode_auto => r
  end.

(** [const handleManualStop = () => ...] *)
Definition handleManualStop (r : Recorder) : Recorder * list string :=
  match mode r with
  | mode_manual =>
      let r := set_isRecording false r in
      (r, if wsRef_open r then [end_of_sentence_frame (tone r)] else [])
  | mode_auto => (r, [])
  end.

(** What can happen to the recorder: a camera frame, a timer that was pending
    fires, or a button is pressed. *)
Inductive ClientEvent : Type :=
| Frame (results : Results)
| StartTimer
| StopTimer
| ModeToggle
| ManualStart
| ManualStop.

Definition client_step (ev : ClientEvent) (r : Recorder)
  : Recorder * list string :=
  match ev with
  | Frame results => onResults results r
  | StartTimer => if startTimeout r then (startTimeout_fires r, []) else (r, [])
  | StopTimer => if stopTimeout r then stopTimeout_fires r else (r, [])
  | ModeToggle => (handleModeToggle r, [])
  | ManualStart => (handleManualStart r, [])
  | ManualStop => handleManualStop r
  end.

Fixpoint client_run (evs : list ClientEvent) (r : Recorder)
  : Recorder * list string :=
  match evs with
  | [] => (r, [])
  | ev :: rest =>
      let '(r1, sent1) := client_step ev r in
      let '(r2, sent2) := client_run rest r1 in
      (r2, sent1 ++ sent2)
  end.

(** ** The message handler between its awaits: the handler *)

(** The [catch] of the handler, which covers every part of it. *)
Definition caught (ws : nat) (body : AsyncHandler unit) : AsyncHandler unit :=
  async_try_catch body
    (fun error =>
       in_world
         (ws_send ws
            (JSON_stringify
               (JObj [("error", JStr "An internal error occurred.")])))).

(** The handler from the arrival of the frame to its first [await], or to
    its end when it does not await. *)
Definition begin (ws : nat) (message : string) : AsyncHandler unit :=
  caught ws
    (let& data := in_world (parse message) in
     let& type := in_world (lift (get_prop data "type")) in
     if strict_eq_str type "signing_data" then
       let& sequence := in_world (lift (get_prop data "sequence")) in
       in_world (landmarkSequences_push ws sequence)
     else if strict_eq_str type "end_of_sentence" then
       let& s := in_world (socket ws) in
       if (0 <? length (landmarkSequences s))%nat then
         let& correlationId := in_world uuidv4_call in
         let& payload_array := (fun a => (Return (generation a ws), a, [])) in
         let& tone := in_world (lift (get_prop data "tone")) in
         let user_tone := js_or tone (JStr "Casual") in
         in_world (waitingClients_set correlationId ws) >&
         in_world (redis_hSet (redisKey (Some correlationId)) "user_tone"
                     user_tone) >&
         suspend (mkSuspended ws correlationId payload_array user_tone
                    AwaitsHSet)
       else rebind ws
     else async_ret tt)%async.

(** The handler from a reply of the store to its next [await], or to its
    end. *)
Definition resume (k : Suspended) : AsyncHandler unit :=
  caught (job_ws k)
    (match job_stage k with
     | AwaitsHSet =>
         in_world (redis_expire (redisKey (Some (job_id k))) 300) >&
         suspend (mkSuspended (job_ws k) (job_id k) (job_array k) (job_tone k)
                    AwaitsExpire)
     | AwaitsExpire =>
         let& landmark_data :=
           (fun a => (Return (array_contents a (job_ws k) (job_array k)), a, []))
         in
         let jobPayload :=
           JObj [("landmark_data", JArr landmark_data);
                 ("user_tone", job_tone k)]
         in
         in_world
           (amqpChannel_publish JOBS_EXCHANGE "recognition_task"
              (Buffer_from (JSON_stringify jobPayload))
              (mkProperties (Some (job_id k)) (Some RESULTS_QUEUE))) >&
         rebind (job_ws k)
     end)%async.

Inductive AsyncEvent : Type :=
| FrameArrives (ws : nat) (message : string)
| ReplyArrives.

Definition async_step (ev : AsyncEvent) : AsyncHandler unit :=
  match ev with
  | FrameArrives ws message => begin ws message
  | ReplyArrives =>
      fun a =>
        match awaiting a with
        | [] => (Return tt, a, [])
        | k :: rest =>
            resume k (mkAsync (now a) (generations a) (detached a) rest)
        end
  end.

Fixpoint async_run (evs : list AsyncEvent) : AsyncHandler unit :=
  match evs with
  | [] => async_ret tt
  | ev :: rest => (async_step ev >& async_run rest)%async
  end.

(** ** Vocabulary of the statements *)

(** [message] is an append frame carrying [batch]. *)
Definition append_frame (message : string) (batch : JSValue) : Prop :=
  exists data,
    JSON_parse message = Some data /\
    get_prop data "type" = Return (JStr "signing_data") /\
    get_prop data "sequence" = Return batch.

(** [message] is an end-of-turn frame whose [tone] property is [tone]
    ([JUndefined] when the frame has none). *)
Definition end_of_turn_frame (message : string) (tone : JSValue) : Prop :=
  exists data,
    JSON_parse message = Some data /\
    get_prop data "type" = Return (JStr "end_of_sentence") /\
    get_prop data "tone" = Return tone.

(** The job payload published for a flushed [buffer]. *)
Definition job_payload (buffer : list JSValue) (tone : JSValue) : JSValue :=
  JObj [("landmark_data", JArr buffer);
        ("user_tone", js_or tone (JStr "Casual"))].

(** The publish to the first stage for job [id]. *)
Definition submission (id : string) (buffer : list JSValue) (tone : JSValue)
  : Effect :=
  Publish JOBS_EXCHANGE "recognition_task"
    (Buffer_from (JSON_stringify (job_payload buffer tone)))
    (mkProperties (Some id) (Some RESULTS_QUEUE)).

(** The world once socket [ws] has submitted job [id] with the tone stored
    as [text]: the job is registered, the record is seeded and given its
    expiry, the buffer is empty and one identity has been drawn. *)
Definition submitted (w : World) (ws : nat) (id text : string) : World :=
  mkWorld
    (<[id := ws]> (waitingClients w))
    (<[redisKey (Some id) :=
         mkRedisHash (<["user_tone" := text]> (hash_at w (redisKey (Some id))))
                     (Some 300)]> (redis w))
    (alter (fun s => mkWebSocket [] (readyState s)) ws (sockets w))
    (S (uuid_calls w)).

(** The world once socket [ws] has dropped its buffer. *)
Definition flushed (w : World) (ws : nat) : World :=
  set_sockets (alter (fun s => mkWebSocket [] (readyState s)) ws) w.

(** What a run of the cut handler leaves to see: the outcome, the world and
    the effects. *)
Definition visible (r : Outcome unit * Async * list Effect)
  : Outcome unit * World * list Effect :=
  let '(o, a, e) := r in (o, now a, e).

(** The frames that socket [ws] receives, in order. *)
Definition frames_of (ws : nat) (messages : list string) : list AsyncEvent :=
  map (FrameArrives ws) messages.

(** The replies to the two store commands of one job. *)
Definition replies : list AsyncEvent := [ReplyArrives; ReplyArrives].

(** Frames (socket and text) of which each is followed by the replies that
    its handler may await before the next frame arrives. *)
Definition uninterrupted (frames : list (nat * string)) : list AsyncEvent :=
  flat_map (fun f => FrameArrives (fst f) (snd f) :: replies) frames.

(** The payload that the barrier forwards for a complete record. *)
Definition merged_payload (jobParts : gmap string string) : JSValue :=
  JObj [("raw_gloss", jobParts_get jobParts "raw_gloss");
        ("dominant_emotion", jobParts_get jobParts "dominant_emotion");
        ("user_tone",
         js_or (jobParts_get jobParts "user_tone") (JStr "Casual"))].

(** The forward to the second stage for notification [msg]. *)
Definition forward (msg : Message) (jobParts : gmap string string) : Effect :=
  Publish JOBS_EXCHANGE "gemini_task"
    (Buffer_from (JSON_stringify (merged_payload jobParts)))
    (mkProperties (correlationId (properties msg)) (replyTo (properties msg))).

(** What a handler for socket [ws] is allowed to do: leave every other
    socket as it is, send frames to [ws] only, publish to the first stage
    only and acknowledge nothing. *)
Definition own_effect (ws : nat) (e : Effect) : Prop :=
  match e with
  | Send to _ => to = ws
  | Publish _ routingKey _ _ => routingKey = "recognition_task"
  | Ack _ => False
  end.

Definition confined {A} (ws : nat) (m : Handler A) : Prop :=
  forall w : World,
    let '(_, w', effects) := m w in
    (forall ws', ws' <> ws -> sockets w' !! ws' = sockets w !! ws') /\
    Forall (own_effect ws) effects.

(** What the listener does with a frame that does not start audio. *)
Definition shown (conversationTone fallbackText error : JSValue) (ui : UI)
  : UI :=
  if ToBoolean conversationTone then setDetectedTone conversationTone ui
  else if ToBoolean fallbackText
       then setNotification (Some (mkToast fallbackText "warning")) ui
       else if ToBoolean error
            then setNotification (Some (mkToast error "error")) ui
            else ui.

(** The recorder once the timers of [onResults] have been seen to. *)
Definition after_timers (results : Results) (r : Recorder) : Recorder :=
  match mode r with
  | mode_auto => auto_timers results r
  | mode_manual => r
  end.

(** A frame that the client may write: an end-of-turn frame, or an append
    frame with a full batch. *)
Definition client_frame (frame : string) : Prop :=
  (exists t, frame = end_of_sentence_frame t) \/
  (exists frames,
      length frames = sequenceBuffer /\ frame = signing_data_frame frames).

(** ** Running the primitives *)

Lemma socket_run (w : World) (ws : nat) (s : WebSocket) :
  sockets w !! ws = Some s -> socket ws w = (Return s, w, []).
Proof. intros H. unfold socket, bind, gets, ret. now rewrite H. Qed.

Lemma socket_dangling (w : World) (ws : nat) :
  sockets w !! ws = None ->
  socket ws w = (Throw (TypeError "Cannot read properties of undefined"), w, []).
Proof. intros H. unfold socket, bind, gets, throw. now rewrite H. Qed.

Lemma bind_Return {A B} (m : Handler A) (k : A -> Handler B) w a w1 e1 :
  m w = (Return a, w1, e1) ->
  bind m k w = (let '(r, w2, e2) := k a w1 in (r, w2, e1 ++ e2)).
Proof. intros H. unfold bind. now rewrite H. Qed.

Lemma bind_Throw {A B} (m : Handler A) (k : A -> Handler B) w err w1 e1 :
  m w = (Throw err, w1, e1) -> bind m k w = (Throw err, w1, e1).
Proof. intros H. unfold bind. now rewrite H. Qed.

Lemma ws_send_open (w : World) (ws : nat) (s : WebSocket) (data : string) :
  sockets w !! ws = Some s -> readyState s = OPEN ->
  ws_send ws data w = (Return tt, w, [Send ws data]).
Proof.
  intros Hs Hr. unfold ws_send.
  rewrite (bind_Return _ _ _ _ _ _ (socket_run _ _ _ Hs)), Hr.
  reflexivity.
Qed.

Lemma try_catch_Return body handler w w1 e1 :
  body w = (Return tt, w1, e1) -> try_catch body handler w = (Return tt, w1, e1).
Proof. intros H. unfold try_catch. now rewrite H. Qed.

Lemma try_catch_Throw body handler w err w1 e1 :
  body w = (Throw err, w1, e1) ->
  try_catch body handler w
  = (let '(r, w2, e2) := handler err w1 in (r, w2, e1 ++ e2)).
Proof. intros H. unfold try_catch. now rewrite H. Qed.

Lemma waitingClients_get_run (w : World) (id : option string) :
  waitingClients_get id w = (Return (resolve w id), w, []).
Proof. reflexivity. Qed.

Lemma redis_hGetAll_run (w : World) (key : string) :
  redis_hGetAll key w = (Return (hash_at w key), w, []).
Proof. reflexivity. Qed.

Lemma hash_at_absent (w : World) (key : string) :
  redis w !! key = None -> hash_at w key = ∅.
Proof. intros H. unfold hash_at. now rewrite H. Qed.

Lemma hash_at_present (w : World) (key : string) (h : RedisHash) :
  redis w !! key = Some h -> hash_at w key = fields h.
Proof. intros H. unfold hash_at. now rewrite H. Qed.

Lemma parse_run (w : World) (text : string) (v : JSValue) :
  JSON_parse text = Some v -> parse text w = (Return v, w, []).
Proof. intros H. unfold parse. now rewrite H. Qed.

Lemma lift_run {A} (w : World) (o : Outcome A) (a : A) :
  o = Return a -> lift o w = (Return a, w, []).
Proof. now intros ->. Qed.

Create HintDb run discriminated.
Hint Resolve socket_run ws_send_open parse_run lift_run : run.

(** One step of a handler: the head of a [bind] or [try_catch] is run and
    its continuation exposed. *)
Ltac step :=
  first
    [ erewrite bind_Return by (first [ reflexivity | solve [eauto with run] ])
    | erewrite try_catch_Return by (first [ reflexivity | solve [eauto with run] ])
    | erewrite bind_Throw by (first [ reflexivity | solve [eauto with run] ])
    | erewrite try_catch_Throw by (first [ reflexivity | solve [eauto with run] ]) ];
  cbv beta iota.

(** ** The result consumer *)

Lemma handleResultMessage_unregistered (w : World) (msg : Message) :
  resolve w (correlationId (properties msg)) = None ->
  handleResultMessage (Some msg) w = (Return tt, w, [Ack msg]).
Proof.
  intros H. unfold handleResultMessage. step.
  rewrite (bind_Return _ _ _ _ _ _ (waitingClients_get_run w _)), H.
  reflexivity.
Qed.

Lemma handleResultMessage_open (w : World) (msg : Message) (id : string)
  (ws : nat) (s : WebSocket) :
  correlationId (properties msg) = Some id ->
  waitingClients w !! id = Some ws ->
  sockets w !! ws = Some s ->
  readyState s = OPEN ->
  handleResultMessage (Some msg) w
  = (Return tt, set_waitingClients (delete id) w,
     [Ack msg; Send ws (Buffer_toString (content msg))]).
Proof.
  intros Hid Hreg Hs Hopen. unfold handleResultMessage. rewrite Hid.
  step. rewrite (bind_Return _ _ _ _ _ _ (waitingClients_get_run w _)).
  cbv beta iota delta [resolve]. rewrite Hreg. step.
  rewrite Hopen. cbv beta iota delta [is_OPEN]. step. reflexivity.
Qed.

Lemma handleResultMessage_not_open (w : World) (msg : Message) (id : string)
  (ws : nat) (s : WebSocket) :
  correlationId (properties msg) = Some id ->
  waitingClients w !! id = Some ws ->
  sockets w !! ws = Some s ->
  readyState s <> OPEN ->
  handleResultMessage (Some msg) w = (Return tt, w, [Ack msg]).
Proof.
  intros Hid Hreg Hs Hopen. unfold handleResultMessage. rewrite Hid.
  step. rewrite (bind_Return _ _ _ _ _ _ (waitingClients_get_run w _)).
  cbv beta iota delta [resolve]. rewrite Hreg. step.
  destruct (readyState s); try congruence; reflexivity.
Qed.

(** ** The dead-letter consumer *)

Lemma handleDeadLetterMessage_open (w : World) (msg : Message) (id : string)
  (ws : nat) (s : WebSocket) (failedJob sentence : JSValue) :
  correlationId (properties msg) = Some id ->
  waitingClients w !! id = Some ws ->
  sockets w !! ws = Some s ->
  readyState s = OPEN ->
  JSON_parse (Buffer_toString (content msg)) = Some failedJob ->
  get_prop failedJob "sentence" = Return sentence ->
  handleDeadLetterMessage (Some msg) w
  = (Return tt, set_waitingClients (delete id) w,
     [Ack msg;
      Send ws (JSON_stringify
                 (JObj [("fallbackText",
                         JStr ("Audio unavailable. Translation: " +:+ dquote
                               +:+ ToString sentence +:+ dquote));
                        ("conversationTone", JStr "Error")]))]).
Proof.
  intros Hid Hreg Hs Hopen Hparse Hsentence.
  unfold handleDeadLetterMessage. rewrite Hid.
  step. rewrite (bind_Return _ _ _ _ _ _ (waitingClients_get_run w _)).
  cbv beta iota delta [resolve]. rewrite Hreg. step.
  rewrite Hopen. cbv beta iota delta [is_OPEN]. do 3 step. reflexivity.
Qed.

(** ** The aggregation barrier *)

Lemma notification_incomplete (w : World) (msg : Message) :
  let jobParts := hash_at w (redisKey (correlationId (properties msg))) in
  jobParts !! "raw_gloss" = None \/ jobParts !! "dominant_emotion" = None ->
  handleAggregationNotification (Some msg) w = (Return tt, w, [Ack msg]).
Proof.
  intros jobParts H. unfold handleAggregationNotification.
  rewrite (bind_Return _ _ _ tt w []); [reflexivity|].
  apply try_catch_Return.
  rewrite (bind_Return _ _ _ _ _ _ (redis_hGetAll_run w _)).
  fold jobParts. unfold jobParts_get.
  destruct H as [-> | ->]; [reflexivity|].
  destruct (jobParts !! "raw_gloss"); reflexivity.
Qed.

Lemma notification_complete (w : World) (msg : Message) (g e : string) :
  let key := redisKey (correlationId (properties msg)) in
  hash_at w key !! "raw_gloss" = Some g ->
  hash_at w key !! "dominant_emotion" = Some e ->
  handleAggregationNotification (Some msg) w
  = (Return tt, set_redis (delete key) w,
     [forward msg (hash_at w key); Ack msg]).
Proof.
  intros key Hg He. unfold handleAggregationNotification.
  rewrite (bind_Return _ _ _ tt (set_redis (delete key) w)
             [forward msg (hash_at w key)]); [reflexivity|].
  apply try_catch_Return.
  rewrite (bind_Return _ _ _ _ _ _ (redis_hGetAll_run w _)).
  fold key. unfold jobParts_get at 1 2. rewrite Hg, He.
  reflexivity.
Qed.

Lemma notification_absent (w : World) (msg : Message) :
  redis w !! redisKey (correlationId (properties msg)) = None ->
  handleAggregationNotification (Some msg) w = (Return tt, w, [Ack msg]).
Proof.
  intros H. apply notification_incomplete. left.
  rewrite (hash_at_absent _ _ H). apply lookup_empty.
Qed.

Lemma worker_hSet_run (w : World) (id field value : string) :
  worker_hSet id field value w
  = (Return tt, set_redis (hset (redisKey (Some id)) field value) w, []).
Proof. reflexivity. Qed.

Lemma hash_at_hset (w : World) (key field value : string) :
  hash_at (set_redis (hset key field value) w) key
  = <[field := value]> (hash_at w key).
Proof.
  unfold hash_at, set_redis, hset. cbn [redis].
  now rewrite lookup_insert_eq.
Qed.

Lemma delete_hset (key field value : string) (db : gmap string RedisHash) :
  delete key (hset key field value db) = delete key db.
Proof. apply delete_insert_eq. Qed.

Lemma run_all_cons (h : Handler unit) (rest : list (Handler unit)) w w1 e1 :
  h w = (Return tt, w1, e1) ->
  run_all (h :: rest) w
  = (let '(r, w2, e2) := run_all rest w1 in (r, w2, e1 ++ e2)).
Proof. intros H. cbn [run_all]. now rewrite (bind_Return _ _ _ _ _ _ H). Qed.

Lemma run_all_nil w : run_all [] w = (Return tt, w, []).
Proof. reflexivity. Qed.

Lemma run_all_app (hs1 hs2 : list (Handler unit)) w w1 e1 :
  run_all hs1 w = (Return tt, w1, e1) ->
  run_all (hs1 ++ hs2) w
  = (let '(r, w2, e2) := run_all hs2 w1 in (r, w2, e1 ++ e2)).
Proof.
  revert w w1 e1. induction hs1 as [|h hs1 IH]; intros w w1 e1 H.
  - rewrite run_all_nil in H. injection H as <- <-.
    cbn [app]. now destruct (run_all hs2 w) as [[r w2] e2].
  - cbn [app run_all] in *. unfold bind in *.
    destruct (h w) as [[[[]|err] wa] ea]; [|discriminate].
    destruct (run_all hs1 wa) as [[r wb] eb] eqn:Hrest.
    injection H as -> -> <-.
    rewrite (IH _ _ _ Hrest).
    destruct (run_all hs2 w1) as [[r2 w2] e2].
    now rewrite app_assoc.
Qed.

(** ** The socket message handler *)

Lemma on_message_append (w : World) (ws : nat) (s : WebSocket)
  (message : string) (batch : JSValue) :
  sockets w !! ws = Some s ->
  append_frame message batch ->
  on_message ws message w
  = (Return tt,
     set_sockets
       <[ws := mkWebSocket (landmarkSequences s ++ [batch]) (readyState s)]> w,
     []).
Proof.
  intros Hs (data & Hparse & Htype & Hseq).
  unfold on_message. apply try_catch_Return.
  do 2 step.
  change (strict_eq_str (JStr "signing_data") "signing_data") with true.
  cbv iota. step. unfold landmarkSequences_push. step. reflexivity.
Qed.

Lemma insert_socket_alter (m : gmap nat WebSocket) ws s f :
  m !! ws = Some s -> <[ws := f s]> m = alter f ws m.
Proof.
  intros H. apply map_eq. intros i.
  rewrite lookup_insert, lookup_alter.
  case_decide; subst; [now rewrite H | reflexivity].
Qed.

Lemma on_message_end_empty (w : World) (ws : nat) (s : WebSocket)
  (message : string) (tone : JSValue) :
  sockets w !! ws = Some s ->
  landmarkSequences s = [] ->
  end_of_turn_frame message tone ->
  on_message ws message w = (Return tt, flushed w ws, []).
Proof.
  intros Hs Hbuf (data & Hparse & Htype & Htone).
  unfold on_message. apply try_catch_Return.
  do 2 step.
  change (strict_eq_str (JStr "end_of_sentence") "signing_data") with false.
  change (strict_eq_str (JStr "end_of_sentence") "end_of_sentence") with true.
  cbv iota. step. rewrite Hbuf. cbn [length Nat.ltb Nat.leb].
  step. unfold landmarkSequences_assign. step.
  unfold flushed, modify, set_sockets.
  now rewrite (insert_socket_alter _ _ _ (fun s => mkWebSocket [] (readyState s)) Hs).
Qed.

Lemma on_message_end_nonempty (w : World) (ws : nat) (s : WebSocket)
  (message : string) (tone : JSValue) (text : string) :
  sockets w !! ws = Some s ->
  landmarkSequences s <> [] ->
  end_of_turn_frame message tone ->
  redis_argument (js_or tone (JStr "Casual")) = Return text ->
  let id := uuidv4 (uuid_calls w) in
  on_message ws message w
  = (Return tt, submitted w ws id text,
     [submission id (landmarkSequences s) tone]).
Proof.
  intros Hs Hbuf (data & Hparse & Htype & Htone) Harg id.
  unfold on_message. apply try_catch_Return.
  do 2 step.
  change (strict_eq_str (JStr "end_of_sentence") "signing_data") with false.
  change (strict_eq_str (JStr "end_of_sentence") "end_of_sentence") with true.
  cbv iota. step.
  destruct (landmarkSequences s) as [|b buf] eqn:Hls; [congruence|].
  cbn [length Nat.ltb Nat.leb].
  rewrite (bind_Return _ _ _ tt
             (mkWorld (<[id := ws]> (waitingClients w))
                (<[redisKey (Some id) :=
                     mkRedisHash
                       (<["user_tone" := text]> (hash_at w (redisKey (Some id))))
                       (Some 300)]> (redis w))
                (sockets w) (S (uuid_calls w)))
             [submission id (b :: buf) tone]).
  - unfold landmarkSequences_assign.
    rewrite (bind_Return _ _ _ s _ []) by (now apply socket_run).
    unfold submitted, modify, set_sockets. cbn [sockets waitingClients redis uuid_calls].
    now rewrite (insert_socket_alter _ _ _ (fun s => mkWebSocket [] (readyState s)) Hs).
  - unfold uuidv4_call. do 3 step. unfold redis_hSet.
    rewrite (bind_Return _ _ _ tt
               (mkWorld (<[id := ws]> (waitingClients w))
                  (<[redisKey (Some id) :=
                       mkRedisHash
                         (<["user_tone" := text]> (hash_at w (redisKey (Some id))))
                         (match redis w !! redisKey (Some id) with
                          | Some h => ttl h
                          | None => None
                          end)]> (redis w))
                  (sockets w) (S (uuid_calls w))) []).
    2:{ step. reflexivity. }
    cbv beta iota. step.
    rewrite (bind_Return _ _ _ s _ []) by (now apply socket_run).
    cbv beta iota. rewrite Hls.
    unfold amqpChannel_publish, emit, submission, job_payload, set_redis.
    cbn [sockets waitingClients redis uuid_calls app].
    now rewrite alter_insert_eq.
Qed.

Lemma alter_flush_insert (m : gmap nat WebSocket) (ws : nat) (s s1 : WebSocket) :
  m !! ws = Some s ->
  readyState s1 = readyState s ->
  alter (fun s => mkWebSocket [] (readyState s)) ws (<[ws := s1]> m)
  = alter (fun s => mkWebSocket [] (readyState s)) ws m.
Proof.
  intros Hs Hr. rewrite alter_insert_eq, Hr.
  apply (insert_socket_alter m ws s (fun s => mkWebSocket [] (readyState s)) Hs).
Qed.

Lemma run_appends (ws : nat) (messages : list string) (batches : list JSValue) :
  Forall2 append_frame messages batches ->
  forall (w : World) (s : WebSocket),
    sockets w !! ws = Some s ->
    run_all (map (on_message ws) messages) w
    = (Return tt,
       set_sockets
         <[ws := mkWebSocket (landmarkSequences s ++ batches) (readyState s)]> w,
       []).
Proof.
  induction 1 as [|message batch messages batches Hframe _ IH]; intros w s Hs.
  - cbn [map]. rewrite run_all_nil. destruct w as [wc rd sk n], s as [buf rs].
    unfold set_sockets.
    cbn [sockets waitingClients redis uuid_calls landmarkSequences readyState] in *.
    now rewrite app_nil_r, (insert_id _ _ _ Hs).
  - cbn [map].
    rewrite (run_all_cons _ _ _ _ _ (on_message_append w ws s _ _ Hs Hframe)).
    rewrite (IH _ (mkWebSocket (landmarkSequences s ++ [batch]) (readyState s)))
      by apply lookup_insert_eq.
    cbn [landmarkSequences readyState app].
    unfold set_sockets. cbn [sockets waitingClients redis uuid_calls].
    now rewrite insert_insert_eq, <- app_assoc.
Qed.

(** A turn: append frames, then one end-of-turn frame, on a socket whose
    buffer holds [landmarkSequences s] when the turn starts. *)
Lemma turn_run (w : World) (ws : nat) (s : WebSocket) (appends : list string)
  (batches : list JSValue) (eot : string) (tone : JSValue) (text : string) :
  sockets w !! ws = Some s ->
  Forall2 append_frame appends batches ->
  end_of_turn_frame eot tone ->
  redis_argument (js_or tone (JStr "Casual")) = Return text ->
  run_all (map (on_message ws) (appends ++ [eot])) w
  = match landmarkSequences s ++ batches with
    | [] => (Return tt, flushed w ws, [])
    | _ :: _ =>
        (Return tt, submitted w ws (uuidv4 (uuid_calls w)) text,
         [submission (uuidv4 (uuid_calls w)) (landmarkSequences s ++ batches) tone])
    end.
Proof.
  intros Hs Happends Heot Harg. rewrite map_app.
  rewrite (run_all_app _ _ _ _ _ (run_appends ws _ _ Happends w s Hs)).
  set (s1 := mkWebSocket (landmarkSequences s ++ batches) (readyState s)).
  set (w1 := set_sockets <[ws := s1]> w).
  assert (Hs1 : sockets w1 !! ws = Some s1) by apply lookup_insert_eq.
  assert (Hflush : alter (fun s => mkWebSocket [] (readyState s)) ws (sockets w1)
                   = alter (fun s => mkWebSocket [] (readyState s)) ws (sockets w)).
  { apply (alter_flush_insert _ _ s s1 Hs). reflexivity. }
  cbn [map].
  destruct (landmarkSequences s ++ batches) as [|b buffer] eqn:Hbuffer.
  - rewrite (run_all_cons _ _ _ _ _
               (on_message_end_empty w1 ws s1 eot tone Hs1 eq_refl Heot)).
    rewrite run_all_nil. cbn [app]. do 2 f_equal.
    unfold flushed, set_sockets. now rewrite Hflush.
  - assert (Hne : landmarkSequences s1 <> []) by discriminate.
    rewrite (run_all_cons _ _ _ _ _
               (on_message_end_nonempty w1 ws s1 eot tone text Hs1 Hne Heot Harg)).
    rewrite run_all_nil. cbn [app]. subst s1. cbn [landmarkSequences].
    do 2 f_equal. unfold submitted. now rewrite Hflush.
Qed.

(** ** Claims about the result and dead-letter consumers *)

(** C7. A result message whose correlation identity has no entry in the
    registry is acknowledged and nothing else happens: the handler returns
    normally, no frame is sent, and the registry, the sockets and the store
    are as before. *)
Theorem result_without_entry_is_only_acknowledged (w : World) (msg : Message) :
  resolve w (correlationId (properties msg)) = None ->
  handleResultMessage (Some msg) w = (Return tt, w, [Ack msg]).
Proof. apply handleResultMessage_unregistered. Qed.

(** C6, amended. A result message whose identity is registered to a socket
    that is open removes exactly that entry from the registry, and a second
    delivery of the message then removes nothing; when the socket is not
    open the registry is left as it is. *)
Theorem result_removes_entry_of_open_socket (w : World) (msg : Message)
  (id : string) (ws : nat) (s : WebSocket) :
  correlationId (properties msg) = Some id ->
  waitingClients w !! id = Some ws ->
  sockets w !! ws = Some s ->
  let w' := snd (fst (handleResultMessage (Some msg) w)) in
  (readyState s = OPEN ->
   waitingClients w' = delete id (waitingClients w) /\
   waitingClients w' !! id = None /\
   handleResultMessage (Some msg) w' = (Return tt, w', [Ack msg])) /\
  (readyState s <> OPEN -> waitingClients w' = waitingClients w).
Proof.
  intros Hid Hreg Hs w'. split; intros Hopen; subst w'.
  - rewrite (handleResultMessage_open _ _ _ _ _ Hid Hreg Hs Hopen).
    cbn [fst snd set_waitingClients waitingClients].
    split; [reflexivity|]. split; [apply lookup_delete_eq|].
    apply handleResultMessage_unregistered. rewrite Hid.
    cbn [resolve waitingClients]. apply lookup_delete_eq.
  - now rewrite (handleResultMessage_not_open _ _ _ _ _ Hid Hreg Hs Hopen).
Qed.

(** C5. A dead-letter message for an identity registered to an open socket,
    whose payload has the string [S_] as its [sentence], is acknowledged,
    writes the one failure frame
    [{fallbackText: 'Audio unavailable. Translation: "S_"', conversationTone: 'Error'}]
    to that socket and removes the identity from the registry. *)
Theorem dead_letter_sends_fallback (w : World) (msg : Message) (id : string)
  (ws : nat) (s : WebSocket) (failedJob : JSValue) (S_ : string) :
  correlationId (properties msg) = Some id ->
  waitingClients w !! id = Some ws ->
  sockets w !! ws = Some s ->
  readyState s = OPEN ->
  JSON_parse (Buffer_toString (content msg)) = Some failedJob ->
  get_prop failedJob "sentence" = Return (JStr S_) ->
  handleDeadLetterMessage (Some msg) w
  = (Return tt, set_waitingClients (delete id) w,
     [Ack msg;
      Send ws (JSON_stringify
                 (JObj [("fallbackText",
                         JStr ("Audio unavailable. Translation: " +:+ dquote
                               +:+ S_ +:+ dquote));
                        ("conversationTone", JStr "Error")]))]).
Proof.
  intros Hid Hreg Hs Hopen Hparse Hsentence.
  apply (handleDeadLetterMessage_open _ _ _ _ _ _ _ Hid Hreg Hs Hopen Hparse Hsentence).
Qed.

(** ** Claims about the aggregation barrier *)

(** C2. With the tone [t] pre-seeded under the job's key and no
    [dominant_emotion] yet: once a worker has written [raw_gloss], a
    notification is acknowledged, publishes nothing and leaves the record
    where it is; once [dominant_emotion] is written too, a notification
    publishes exactly one message, to [gemini_task], whose payload holds both
    fields and the tone and whose options carry the identity and the reply
    destination of the notification, and the record is gone afterwards. *)
Theorem barrier_forwards_when_complete (w : World) (id g e t : string)
  (n1 n2 : Message) :
  correlationId (properties n1) = Some id ->
  correlationId (properties n2) = Some id ->
  let key := redisKey (Some id) in
  hash_at w key !! "dominant_emotion" = None ->
  hash_at w key !! "user_tone" = Some t ->
  t <> EmptyString ->
  let w1 := set_redis (hset key "raw_gloss" g) w in
  let w2 := set_redis (delete key) w in
  (run_all [worker_hSet id "raw_gloss" g;
            handleAggregationNotification (Some n1)] w
   = (Return tt, w1, [Ack n1]) /\
   is_Some (redis w1 !! key)) /\
  (run_all [worker_hSet id "dominant_emotion" e;
            handleAggregationNotification (Some n2)] w1
   = (Return tt, w2,
      [Publish JOBS_EXCHANGE "gemini_task"
         (Buffer_from
            (JSON_stringify
               (JObj [("raw_gloss", JStr g);
                      ("dominant_emotion", JStr e);
                      ("user_tone", JStr t)])))
         (mkProperties (Some id) (replyTo (properties n2)));
       Ack n2]) /\
   redis w2 !! key = None).
Proof.
  intros H1 H2 key Hde Htone Ht w1 w2. split; split.
  - rewrite (run_all_cons _ _ _ _ _ (worker_hSet_run w id "raw_gloss" g)).
    fold key. fold w1.
    rewrite (run_all_cons _ _ w1 w1 [Ack n1]); [reflexivity|].
    apply notification_incomplete. right. rewrite H1. fold key.
    unfold w1. rewrite hash_at_hset, lookup_insert_ne by discriminate.
    exact Hde.
  - unfold w1, set_redis, hset. cbn [redis]. rewrite lookup_insert_eq. eauto.
  - rewrite (run_all_cons _ _ _ _ _ (worker_hSet_run w1 id "dominant_emotion" e)).
    fold key.
    set (w1' := set_redis (hset key "dominant_emotion" e) w1).
    assert (Hparts : hash_at w1' key
                     = <["dominant_emotion" := e]> (<["raw_gloss" := g]> (hash_at w key))).
    { unfold w1', w1. now rewrite !hash_at_hset. }
    rewrite (run_all_cons _ _ w1' w2
               [forward n2 (hash_at w1' key); Ack n2]).
    + rewrite run_all_nil. cbn [app]. do 2 f_equal. f_equal.
      unfold forward, merged_payload, jobParts_get. rewrite H2, Hparts.
      rewrite lookup_insert_ne, lookup_insert_eq by discriminate.
      rewrite lookup_insert_eq.
      rewrite !lookup_insert_ne by discriminate. rewrite Htone.
      unfold js_or, ToBoolean.
      destruct (String.eqb_spec t EmptyString) as [->|_]; [congruence|reflexivity].
    + replace w2 with (set_redis (delete key) w1').
      * pose proof (notification_complete w1' n2 g e) as Hc.
        cbv zeta in Hc. rewrite H2 in Hc. fold key in Hc. apply Hc.
        -- rewrite Hparts, lookup_insert_ne, lookup_insert_eq by discriminate.
           reflexivity.
        -- rewrite Hparts. apply lookup_insert_eq.
      * unfold w2, w1', w1, set_redis. cbn [redis waitingClients sockets uuid_calls].
        now rewrite !delete_hset.
  - unfold w2, set_redis. cbn [redis]. apply lookup_delete_eq.
Qed.

(** C3. Delivering a completion notification twice for a complete record
    forwards once: the first delivery publishes the merged payload and
    deletes the record; the second, which finds the record deleted, is
    acknowledged, publishes nothing and leaves the world as it found it. *)
Theorem barrier_duplicate_notification_is_noop (w : World) (msg : Message)
  (g e : string) :
  let key := redisKey (correlationId (properties msg)) in
  hash_at w key !! "raw_gloss" = Some g ->
  hash_at w key !! "dominant_emotion" = Some e ->
  let w1 := set_redis (delete key) w in
  handleAggregationNotification (Some msg) w
  = (Return tt, w1, [forward msg (hash_at w key); Ack msg]) /\
  redis w1 !! key = None /\
  handleAggregationNotification (Some msg) w1 = (Return tt, w1, [Ack msg]).
Proof.
  intros key Hg He w1.
  assert (Hgone : redis w1 !! key = None) by apply lookup_delete_eq.
  split; [|split].
  - apply (notification_complete w msg g e Hg He).
  - exact Hgone.
  - apply notification_absent. exact Hgone.
Qed.


(** ** Claims about a session's turn *)


(** C8. A socket with an empty buffer receives the append frames with
    batches [[[0.1,0.2,0.0,1.0]]] and [[[0.3,0.4,0.0,1.0]]] and then an
    end-of-turn frame with tone ['Formal'], the identity drawn having no
    record in the store yet.  Exactly one message is published, to
    [recognition_task], with a two-element buffer and tone ['Formal']; the
    identity is registered to the socket; and the store holds
    [{user_tone: 'Formal'}] under [job:<identity>], expiring after 300 s. *)
Theorem formal_turn_scenario (w : World) (ws : nat) (s : WebSocket)
  (m1 m2 m3 : string) :
  sockets w !! ws = Some s ->
  landmarkSequences s = [] ->
  append_frame m1 batch1 ->
  append_frame m2 batch2 ->
  end_of_turn_frame m3 (JStr "Formal") ->
  let id := uuidv4 (uuid_calls w) in
  redis w !! redisKey (Some id) = None ->
  let '(outcome, w', effects) := run_all (map (on_message ws) [m1; m2; m3]) w in
  outcome = Return tt /\
  effects
  = [Publish JOBS_EXCHANGE "recognition_task"
       (Buffer_from
          (JSON_stringify
             (JObj [("landmark_data", JArr [batch1; batch2]);
                    ("user_tone", JStr "Formal")])))
       (mkProperties (Some id) (Some RESULTS_QUEUE))] /\
  waitingClients w' = <[id := ws]> (waitingClients w) /\
  redis w'
  = <[redisKey (Some id) := mkRedisHash {["user_tone" := "Formal"]} (Some 300)]>
      (redis w) /\
  sockets w' !! ws = Some (mkWebSocket [] (readyState s)).
Proof.
  intros Hs Hempty H1 H2 H3 id Hfresh.
  assert (Happends : Forall2 append_frame [m1; m2] [batch1; batch2])
    by (repeat constructor; assumption).
  change [m1; m2; m3] with ([m1; m2] ++ [m3]).
  rewrite (turn_run w ws s [m1; m2] _ m3 _ "Formal" Hs Happends H3 eq_refl).
  rewrite Hempty. cbn [app]. fold id.
  split; [reflexivity|]. split; [reflexivity|]. split; [reflexivity|].
  unfold submitted. cbn [redis sockets]. split.
  - now rewrite (hash_at_absent _ _ Hfresh), insert_empty.
  - now rewrite lookup_alter_eq, Hs.
Qed.

(** C9. A missing tone becomes ['Casual'].  An end-of-turn frame with no
    [tone] property, on a socket whose buffer is not empty, publishes a job
    whose [user_tone] is ['Casual'] and seeds the store with [user_tone]
    ['Casual']; and a notification that finds a record with both fields but no
    [user_tone] forwards a payload whose [user_tone] is ['Casual']. *)
Theorem missing_tone_defaults_to_Casual (w : World) (ws : nat) (s : WebSocket)
  (eot : string) (w2 : World) (msg : Message) (g e : string) :
  sockets w !! ws = Some s ->
  landmarkSequences s <> [] ->
  end_of_turn_frame eot JUndefined ->
  let key := redisKey (correlationId (properties msg)) in
  hash_at w2 key !! "raw_gloss" = Some g ->
  hash_at w2 key !! "dominant_emotion" = Some e ->
  hash_at w2 key !! "user_tone" = None ->
  let id := uuidv4 (uuid_calls w) in
  let w' := submitted w ws id "Casual" in
  on_message ws eot w
  = (Return tt, w',
     [Publish JOBS_EXCHANGE "recognition_task"
        (Buffer_from
           (JSON_stringify
              (JObj [("landmark_data", JArr (landmarkSequences s));
                     ("user_tone", JStr "Casual")])))
        (mkProperties (Some id) (Some RESULTS_QUEUE))]) /\
  hash_at w' (redisKey (Some id)) !! "user_tone" = Some "Casual" /\
  handleAggregationNotification (Some msg) w2
  = (Return tt, set_redis (delete key) w2,
     [Publish JOBS_EXCHANGE "gemini_task"
        (Buffer_from
           (JSON_stringify
              (JObj [("raw_gloss", JStr g);
                     ("dominant_emotion", JStr e);
                     ("user_tone", JStr "Casual")])))
        (mkProperties (correlationId (properties msg)) (replyTo (properties msg)));
      Ack msg]).
Proof.
  intros Hs Hne Heot key Hg He Htone id w'. split; [|split].
  - apply (on_message_end_nonempty w ws s eot JUndefined "Casual" Hs Hne Heot eq_refl).
  - unfold w', submitted, hash_at at 1. cbn [redis].
    rewrite lookup_insert_eq. cbn [from_option fields]. apply lookup_insert_eq.
  - rewrite (notification_complete w2 msg g e Hg He). fold key.
    unfold forward, merged_payload, jobParts_get. now rewrite Hg, He, Htone.
Qed.

(** ** More about the socket message handler *)

(** X1. A frame that is not JSON, or that is the JSON value [null], is
    answered with the error frame on the socket it came from, when that socket
    is open; the handler returns normally and the world is unchanged. *)
Theorem malformed_frame_gets_error_frame (w : World) (ws : nat) (s : WebSocket)
  (message : string) :
  sockets w !! ws = Some s ->
  readyState s = OPEN ->
  JSON_parse message = None \/ JSON_parse message = Some JNull ->
  on_message ws message w
  = (Return tt, w,
     [Send ws (JSON_stringify
                 (JObj [("error", JStr "An internal error occurred.")]))]).
Proof.
  intros Hs Hopen [Hparse | Hparse]; unfold on_message.
  - rewrite (try_catch_Throw _ _ w SyntaxError w []).
    + now rewrite (ws_send_open w ws s _ Hs Hopen).
    + apply bind_Throw. unfold parse. now rewrite Hparse.
  - rewrite (try_catch_Throw _ _ w
               (TypeError "Cannot read properties of null") w []).
    + now rewrite (ws_send_open w ws s _ Hs Hopen).
    + do 2 step. reflexivity.
Qed.

(** X2. A frame that parses to a value other than [null] whose [type] is
    neither ['signing_data'] nor ['end_of_sentence'] (or is missing) is
    ignored: nothing is sent, published or stored, whatever the socket. *)
Theorem frame_of_other_type_is_ignored (w : World) (ws : nat)
  (message : string) (data ty : JSValue) :
  JSON_parse message = Some data ->
  get_prop data "type" = Return ty ->
  strict_eq_str ty "signing_data" = false ->
  strict_eq_str ty "end_of_sentence" = false ->
  on_message ws message w = (Return tt, w, []).
Proof.
  intros Hparse Htype Hsd Heos. unfold on_message.
  apply try_catch_Return. do 2 step. now rewrite Hsd, Heos.
Qed.

Lemma confined_bind {A B} ws (m : Handler A) (k : A -> Handler B) :
  confined ws m -> (forall a, confined ws (k a)) -> confined ws (bind m k).
Proof.
  intros Hm Hk w. unfold bind. specialize (Hm w).
  destruct (m w) as [[[a|err] w1] e1]; [|exact Hm].
  specialize (Hk a w1). destruct (k a w1) as [[r w2] e2].
  destruct Hm as [Hm1 Hm2], Hk as [Hk1 Hk2]. split.
  - intros ws' Hne. now rewrite (Hk1 ws' Hne), (Hm1 ws' Hne).
  - now apply Forall_app.
Qed.

Lemma confined_try_catch ws (body : Handler unit) handler :
  confined ws body -> (forall err, confined ws (handler err)) ->
  confined ws (try_catch body handler).
Proof.
  intros Hm Hk w. unfold try_catch. specialize (Hm w).
  destruct (body w) as [[[a|err] w1] e1]; [exact Hm|].
  specialize (Hk err w1). destruct (handler err w1) as [[r w2] e2].
  destruct Hm as [Hm1 Hm2], Hk as [Hk1 Hk2]. split.
  - intros ws' Hne. now rewrite (Hk1 ws' Hne), (Hm1 ws' Hne).
  - now apply Forall_app.
Qed.

Lemma confined_silent {A} ws (m : Handler A) :
  (forall w, exists o w', m w = (o, w', []) /\ sockets w' = sockets w) ->
  confined ws m.
Proof.
  intros H w. destruct (H w) as (o & w' & -> & Hs).
  split; [|constructor]. intros ws' _. now rewrite Hs.
Qed.

Ltac silent :=
  apply confined_silent; intros ?; cbn; solve [eauto].

Lemma confined_socket ws : confined ws (socket ws).
Proof.
  apply confined_silent. intros w. unfold socket, bind, gets, ret, throw.
  destruct (sockets w !! ws); eauto.
Qed.

Lemma confined_update ws (s : WebSocket) :
  confined ws (modify (set_sockets <[ws := s]>)).
Proof.
  intros w. cbn. split; [|constructor].
  intros ws' Hne. now apply lookup_insert_ne.
Qed.

Lemma confined_ws_send ws data : confined ws (ws_send ws data).
Proof.
  unfold ws_send. apply confined_bind; [apply confined_socket|].
  intros s w. destruct (readyState s); cbn;
    (split; [reflexivity | repeat constructor]).
Qed.

(** X3. Whatever the frame, the handler of a socket leaves all other sockets
    (their buffers and states) as they are, writes frames to its own socket
    only, publishes to [recognition_task] only and acknowledges nothing. *)
Theorem on_message_is_confined_to_its_socket (w : World) (ws ws' : nat)
  (message : string) :
  ws' <> ws ->
  let '(_, w', effects) := on_message ws message w in
  sockets w' !! ws' = sockets w !! ws' /\
  Forall (own_effect ws) effects.
Proof.
  intros Hne.
  assert (H : confined ws (on_message ws message)).
  { unfold on_message. apply confined_try_catch;
      [|intros; apply confined_ws_send].
    apply confined_bind.
    { apply confined_silent. intros w0. unfold parse.
      destruct (JSON_parse message); cbn; eauto. }
    intros data. apply confined_bind; [silent|].
    intros ty. destruct (strict_eq_str ty "signing_data").
    { apply confined_bind; [silent|].
      intros item. unfold landmarkSequences_push.
      apply confined_bind; [apply confined_socket|].
      intros s. apply confined_update. }
    destruct (strict_eq_str ty "end_of_sentence"); [|silent].
    apply confined_bind; [apply confined_socket|]. intros s.
    apply confined_bind.
    2:{ intros _. unfold landmarkSequences_assign.
        apply confined_bind; [apply confined_socket|].
        intros s0. apply confined_update. }
    destruct (0 <? length (landmarkSequences s))%nat; [|silent].
    apply confined_bind; [silent|].
    intros id. apply confined_bind; [silent|].
    intros tone0. apply confined_bind; [silent|]. intros _.
    apply confined_bind.
    { unfold redis_hSet. apply confined_bind; [silent|].
      intros arg. silent. }
    intros _. apply confined_bind; [silent|]. intros _.
    apply confined_bind; [apply confined_socket|]. intros s'.
    intros w0. cbn. split; [reflexivity|]. repeat constructor. }
  specialize (H w). destruct (on_message ws message w) as [[o w'] effects].
  destruct H as [H1 H2]. split; [now apply H1 | exact H2].
Qed.

(** X4. Append frames only accumulate: a run of append frames on a socket
    returns normally, sends and publishes nothing, and changes nothing in the
    world but the socket's buffer, which grows by the batches in arrival
    order. *)
Theorem append_frames_only_accumulate (w : World) (ws : nat) (s : WebSocket)
  (messages : list string) (batches : list JSValue) :
  sockets w !! ws = Some s ->
  Forall2 append_frame messages batches ->
  run_all (map (on_message ws) messages) w
  = (Return tt,
     set_sockets
       <[ws := mkWebSocket (landmarkSequences s ++ batches) (readyState s)]> w,
     []).
Proof. intros Hs Hframes. now apply run_appends. Qed.

(** ** The message handler between its awaits *)

Ltac unfold_handlers :=
  cbv beta iota zeta delta
    [async_run async_step async_bind async_ret begin resume caught
     async_try_catch in_world suspend rebind on_message try_catch bind ret
     throw lift gets modify emit parse socket ws_send landmarkSequences_push
     landmarkSequences_assign uuidv4_call waitingClients_set redis_hSet
     redis_hset_string redis_expire amqpChannel_publish array_contents
     now awaiting generations detached sockets waitingClients redis uuid_calls
     set_sockets set_redis set_waitingClients job_ws job_id job_array
     job_tone job_stage generation app].

(** Every case of a handler that is left after [unfold_handlers]. *)
Ltac each_case :=
  repeat (unfold_handlers;
          try rewrite Nat.eqb_refl;
          match goal with
          | |- context [match JSON_parse ?m with _ => _ end] =>
              destruct (JSON_parse m) eqn:?
          | |- context [match get_prop ?v ?k with _ => _ end] =>
              destruct (get_prop v k) eqn:?
          | |- context [if strict_eq_str ?v ?k then _ else _] =>
              destruct (strict_eq_str v k) eqn:?
          | |- context [match ?m !! ?k with _ => _ end] =>
              destruct (m !! k) eqn:?
          | |- context [if (0 <? ?n)%nat then _ else _] =>
              destruct (0 <? n)%nat eqn:?
          | |- context [match redis_argument ?v with _ => _ end] =>
              destruct (redis_argument v) eqn:?
          | |- context [match readyState ?s with _ => _ end] =>
              destruct (readyState s) eqn:?
          end).

Lemma async_run_app (xs ys : list AsyncEvent) a a1 e1 :
  async_run xs a = (Return tt, a1, e1) ->
  async_run (xs ++ ys) a
  = (let '(r, a2, e2) := async_run ys a1 in (r, a2, e1 ++ e2)).
Proof.
  revert a a1 e1. induction xs as [|x xs IH]; intros a a1 e1 H.
  - cbn in H. injection H as <- <-.
    cbn [app]. now destruct (async_run ys a) as [[r a2] e2].
  - cbn [app async_run] in *. unfold async_bind in *.
    destruct (async_step x a) as [[[[]|err] aa] ea]; [|discriminate].
    destruct (async_run xs aa) as [[r ab] eb] eqn:Hrest.
    injection H as -> -> <-.
    rewrite (IH _ _ _ Hrest).
    destruct (async_run ys a1) as [[r2 a2] e2].
    now rewrite app_assoc.
Qed.

Lemma async_run_cons (x : AsyncEvent) (xs : list AsyncEvent) a a1 e1 :
  async_step x a = (Return tt, a1, e1) ->
  async_run (x :: xs) a
  = (let '(r, a2, e2) := async_run xs a1 in (r, a2, e1 ++ e2)).
Proof. intros H. cbn [async_run]. unfold async_bind. now rewrite H. Qed.

Lemma begin_append (a : Async) (ws : nat) (s : WebSocket) (message : string)
  (batch : JSValue) :
  sockets (now a) !! ws = Some s ->
  append_frame message batch ->
  begin ws message a
  = (Return tt,
     mkAsync
       (set_sockets
          <[ws := mkWebSocket (landmarkSequences s ++ [batch]) (readyState s)]>
          (now a))
       (generations a) (detached a) (awaiting a),
     []).
Proof.
  intros Hs (data & Hparse & Htype & Hseq).
  destruct a as [[wc rd sk n] g d q]. cbn [now sockets] in Hs.
  unfold_handlers. rewrite Hparse. unfold_handlers. rewrite Htype.
  change (strict_eq_str (JStr "signing_data") "signing_data") with true.
  unfold_handlers. rewrite Hseq. unfold_handlers. rewrite Hs.
  reflexivity.
Qed.

Lemma async_appends (ws : nat) (messages : list string)
  (batches : list JSValue) :
  Forall2 append_frame messages batches ->
  forall (a : Async) (s : WebSocket),
    sockets (now a) !! ws = Some s ->
    async_run (frames_of ws messages) a
    = (Return tt,
       mkAsync
         (set_sockets
            <[ws := mkWebSocket (landmarkSequences s ++ batches) (readyState s)]>
            (now a))
         (generations a) (detached a) (awaiting a),
       []).
Proof.
  induction 1 as [|message batch messages batches Hframe _ IH]; intros a s Hs.
  - destruct a as [[wc rd sk n] g d q], s as [buf rs].
    cbn [now sockets] in Hs. cbn. unfold async_ret, set_sockets. cbn.
    now rewrite app_nil_r, (insert_id _ _ _ Hs).
  - cbn [frames_of map]. fold (frames_of ws messages).
    rewrite (async_run_cons (FrameArrives ws message) _ _ _ _
               (begin_append a ws s _ _ Hs Hframe)).
    rewrite (IH _ (mkWebSocket (landmarkSequences s ++ [batch]) (readyState s)))
      by apply lookup_insert_eq.
    cbn [landmarkSequences readyState app now generations detached awaiting].
    unfold set_sockets. cbn [sockets waitingClients redis uuid_calls].
    now rewrite insert_insert_eq, <- app_assoc.
Qed.

Lemma begin_end_nonempty (a : Async) (ws : nat) (s : WebSocket)
  (message : string) (tone : JSValue) (text : string) :
  sockets (now a) !! ws = Some s ->
  landmarkSequences s <> [] ->
  end_of_turn_frame message tone ->
  redis_argument (js_or tone (JStr "Casual")) = Return text ->
  let id := uuidv4 (uuid_calls (now a)) in
  begin ws message a
  = (Return tt,
     mkAsync
       (mkWorld (<[id := ws]> (waitingClients (now a)))
          (hset (redisKey (Some id)) "user_tone" text (redis (now a)))
          (sockets (now a)) (S (uuid_calls (now a))))
       (generations a) (detached a)
       (awaiting a
        ++ [mkSuspended ws id (generation a ws) (js_or tone (JStr "Casual"))
              AwaitsHSet]),
     []).
Proof.
  intros Hs Hbuf (data & Hparse & Htype & Htone) Harg id. subst id.
  destruct a as [[wc rd sk n] g d q]. cbn [now sockets] in Hs.
  unfold_handlers. rewrite Hparse. unfold_handlers. rewrite Htype.
  change (strict_eq_str (JStr "end_of_sentence") "signing_data") with false.
  change (strict_eq_str (JStr "end_of_sentence") "end_of_sentence") with true.
  unfold_handlers. rewrite Hs. unfold_handlers.
  destruct (landmarkSequences s) as [|b buf]; [congruence|].
  cbn [length Nat.ltb Nat.leb]. unfold_handlers.
  rewrite Htone. unfold_handlers. rewrite Harg. reflexivity.
Qed.

Lemma reply_to_hSet (a : Async) (k : Suspended) (rest : list Suspended) :
  awaiting a = k :: rest ->
  job_stage k = AwaitsHSet ->
  async_step ReplyArrives a
  = (Return tt,
     mkAsync
       (set_redis
          (alter (fun h => mkRedisHash (fields h) (Some 300))
             (redisKey (Some (job_id k))))
          (now a))
       (generations a) (detached a)
       (rest
        ++ [mkSuspended (job_ws k) (job_id k) (job_array k) (job_tone k)
              AwaitsExpire]),
     []).
Proof.
  destruct a as [[wc rd sk n] g d q], k as [kws kid karr ktone kstage].
  cbn [awaiting job_stage]. intros -> ->. reflexivity.
Qed.

Lemma reply_to_expire (a : Async) (k : Suspended) (rest : list Suspended)
  (s : WebSocket) :
  awaiting a = k :: rest ->
  job_stage k = AwaitsExpire ->
  sockets (now a) !! job_ws k = Some s ->
  async_step ReplyArrives a
  = (Return tt,
     mkAsync
       (set_sockets <[job_ws k := mkWebSocket [] (readyState s)]> (now a))
       (<[job_ws k := S (generation a (job_ws k))]> (generations a))
       (<[(job_ws k, generation a (job_ws k)) := landmarkSequences s]>
          (detached a))
       rest,
     [Publish JOBS_EXCHANGE "recognition_task"
        (Buffer_from
           (JSON_stringify
              (JObj [("landmark_data",
                      JArr (array_contents a (job_ws k) (job_array k)));
                     ("user_tone", job_tone k)])))
        (mkProperties (Some (job_id k)) (Some RESULTS_QUEUE))]).
Proof.
  destruct a as [[wc rd sk n] g d q], k as [kws kid karr ktone kstage].
  cbn [awaiting job_stage job_ws now sockets]. intros -> -> Hs.
  unfold array_contents. unfold_handlers. rewrite Hs. reflexivity.
Qed.

Lemma reply_when_idle (a : Async) :
  awaiting a = [] -> async_step ReplyArrives a = (Return tt, a, []).
Proof. intros H. cbn. now rewrite H. Qed.

Lemma frame_then_replies (a : Async) (ws : nat) (message : string) :
  awaiting a = [] ->
  exists o a' e,
    async_run [FrameArrives ws message; ReplyArrives; ReplyArrives] a
    = (o, a', e) /\
    on_message ws message (now a) = (o, now a', e) /\
    awaiting a' = [].
Proof.
  destruct a as [w g d q]. cbn [awaiting]. intros ->.
  destruct w as [wc rd sk n].
  each_case.
  all: simplify_eq; do 3 eexists; repeat split; reflexivity.
Qed.

Lemma async_run_app_Throw (xs ys : list AsyncEvent) a err a1 e1 :
  async_run xs a = (Throw err, a1, e1) ->
  async_run (xs ++ ys) a = (Throw err, a1, e1).
Proof.
  revert a a1 e1. induction xs as [|x xs IH]; intros a a1 e1 H.
  - discriminate.
  - cbn [app async_run] in *. unfold async_bind in *.
    destruct (async_step x a) as [[[[]|err'] aa] ea]; [|exact H].
    destruct (async_run xs aa) as [[[[]|err'] ab] eb] eqn:Hrest;
      [discriminate|].
    injection H as -> -> <-.
    now rewrite (IH _ _ _ Hrest).
Qed.

(** X25. The handler [on_message] is the handler cut at its awaits when the
    replies of the store arrive before the next frame: for every list of
    frames on any sockets, handling each frame and then the replies to its
    two store commands gives the outcome, the world and the effects of
    running [on_message] on the frames one after the other. *)
Theorem on_message_is_the_uninterrupted_handler (frames : list (nat * string))
  (w : World) :
  visible (async_run (uninterrupted frames) (settled w))
  = run_all (map (fun f => on_message (fst f) (snd f)) frames) w.
Proof.
  change w with (now (settled w)) at 2.
  assert (Hidle : awaiting (settled w) = []) by reflexivity.
  revert Hidle. generalize (settled w). clear w.
  induction frames as [|[ws message] frames IH]; intros a Hidle.
  - reflexivity.
  - change (uninterrupted ((ws, message) :: frames))
      with ([FrameArrives ws message; ReplyArrives; ReplyArrives]
            ++ uninterrupted frames).
    cbn [map fst snd].
    destruct (frame_then_replies a ws message Hidle)
      as (o & a1 & e1 & Hrun & Hatomic & Hidle1).
    destruct o as [[]|err].
    + rewrite (async_run_app _ _ _ _ _ Hrun).
      rewrite (run_all_cons _ _ _ _ _ Hatomic).
      rewrite <- (IH a1 Hidle1).
      now destruct (async_run (uninterrupted frames) a1) as [[r a2] e2].
    + rewrite (async_run_app_Throw _ _ _ _ _ _ Hrun).
      cbn [run_all]. now rewrite (bind_Throw _ _ _ _ _ _ Hatomic).
Qed.

(** A turn whose replies arrive before anything else. *)
Lemma async_turn (a : Async) (ws : nat) (s : WebSocket)
  (appends : list string) (batches : list JSValue) (eot : string)
  (tone : JSValue) (text : string) :
  awaiting a = [] ->
  sockets (now a) !! ws = Some s ->
  Forall2 append_frame appends batches ->
  landmarkSequences s ++ batches <> [] ->
  end_of_turn_frame eot tone ->
  redis_argument (js_or tone (JStr "Casual")) = Return text ->
  let id := uuidv4 (uuid_calls (now a)) in
  exists a',
    async_run (frames_of ws (appends ++ [eot]) ++ replies) a
    = (Return tt, a', [submission id (landmarkSequences s ++ batches) tone]) /\
    now a' = submitted (now a) ws id text /\
    awaiting a' = [].
Proof.
  intros Hidle Hs Happends Hne Heot Harg id.
  unfold frames_of. rewrite map_app, <- app_assoc.
  fold (frames_of ws appends).
  rewrite (async_run_app _ _ _ _ _ (async_appends ws _ _ Happends a s Hs)).
  set (s1 := mkWebSocket (landmarkSequences s ++ batches) (readyState s)).
  set (a1 := mkAsync (set_sockets <[ws := s1]> (now a)) (generations a)
               (detached a) (awaiting a)).
  assert (Hs1 : sockets (now a1) !! ws = Some s1) by apply lookup_insert_eq.
  destruct (frame_then_replies a1 ws eot Hidle)
    as (o & a2 & e2 & Hrun & Hatomic & Hidle2).
  rewrite (on_message_end_nonempty (now a1) ws s1 eot tone text Hs1 Hne Heot Harg)
    in Hatomic.
  injection Hatomic as <- Hnow <-.
  cbn [map app]. unfold replies. rewrite Hrun. exists a2.
  repeat split; [|exact Hidle2].
  rewrite <- Hnow. unfold submitted. cbn [now a1 set_sockets sockets
    waitingClients redis uuid_calls hash_at].
  f_equal. apply (alter_flush_insert _ _ s s1 Hs). reflexivity.
Qed.

(** The store after the commands of two jobs, whichever way the [expire]
    of the first and the [hSet] of the second are ordered. *)
Lemma store_after_two_jobs (k1 k2 f t1 t2 : string)
  (rd : gmap string RedisHash) :
  let expire := alter (fun h => mkRedisHash (fields h) (Some 300)) in
  let rd1 :=
    <[k1 := mkRedisHash (<[f := t1]> (from_option fields ∅ (rd !! k1)))
                        (Some 300)]> rd
  in
  expire k2 (expire k1 (hset k2 f t2 (hset k1 f t1 rd)))
  = <[k2 := mkRedisHash (<[f := t2]> (from_option fields ∅ (rd1 !! k2)))
                        (Some 300)]> rd1.
Proof.
  intros expire rd1. subst expire rd1. unfold hset.
  apply map_eq. intros i.
  destruct (decide (k1 = k2)) as [Hk|Hk];
    destruct (decide (i = k1)) as [Hi1|Hi1];
    destruct (decide (i = k2)) as [Hi2|Hi2];
    simplify_map_eq; try reflexivity; try congruence.
Qed.

Ltac tidy_state :=
  unfold set_sockets, set_redis, generation;
  cbn [map app settled now generations detached awaiting waitingClients redis
       sockets uuid_calls job_ws job_id job_array job_tone job_stage
       landmarkSequences readyState];
  rewrite ?lookup_empty, ?lookup_insert_eq, ?insert_insert_eq;
  cbn [default from_option id].

(** Two turns of which the second is handled while the first still awaits
    the store. *)
Lemma race_run (w : World) (ws : nat) (s : WebSocket)
  (appends1 appends2 : list string) (batches1 batches2 : list JSValue)
  (eot1 eot2 : string) (tone1 tone2 : JSValue) (text1 text2 : string) :
  sockets w !! ws = Some s ->
  Forall2 append_frame appends1 batches1 ->
  Forall2 append_frame appends2 batches2 ->
  landmarkSequences s ++ batches1 <> [] ->
  end_of_turn_frame eot1 tone1 ->
  end_of_turn_frame eot2 tone2 ->
  redis_argument (js_or tone1 (JStr "Casual")) = Return text1 ->
  redis_argument (js_or tone2 (JStr "Casual")) = Return text2 ->
  let id1 := uuidv4 (uuid_calls w) in
  let id2 := uuidv4 (S (uuid_calls w)) in
  let both := landmarkSequences s ++ batches1 ++ batches2 in
  visible
    (async_run
       (frames_of ws (appends1 ++ [eot1]) ++ frames_of ws (appends2 ++ [eot2])
        ++ replies ++ replies)
       (settled w))
  = (Return tt,
     submitted (submitted w ws id1 text1) ws id2 text2,
     [submission id1 both tone1; submission id2 both tone2]).
Proof.
  intros Hs H1 H2 Hne Heot1 Heot2 Harg1 Harg2 id1 id2 both.
  unfold frames_of. rewrite !map_app, <- !app_assoc.
  fold (frames_of ws appends1) (frames_of ws appends2).
  rewrite (async_run_app _ _ _ _ _
             (async_appends ws _ _ H1 (settled w) s Hs)).
  cbn [map app settled now generations detached awaiting].
  match goal with
  | |- context [async_run (FrameArrives ws eot1 :: _) ?a] =>
      rewrite (async_run_cons (FrameArrives ws eot1) _ _ _ _
                 (begin_end_nonempty a ws _ eot1 tone1 text1
                    (lookup_insert_eq _ _ _) Hne Heot1 Harg1))
  end.
  tidy_state.
  match goal with
  | |- context [async_run (frames_of ws appends2 ++ _) ?a] =>
      rewrite (async_run_app _ _ _ _ _
                 (async_appends ws _ _ H2 a _ (lookup_insert_eq _ _ _)))
  end.
  tidy_state.
  assert (Hne2 : (landmarkSequences s ++ batches1) ++ batches2 <> []).
  { intros H. now apply app_eq_nil in H as [? _]. }
  match goal with
  | |- context [async_run (FrameArrives ws eot2 :: _) ?a] =>
      rewrite (async_run_cons (FrameArrives ws eot2) _ _ _ _
                 (begin_end_nonempty a ws _ eot2 tone2 text2
                    (lookup_insert_eq _ _ _) Hne2 Heot2 Harg2))
  end.
  tidy_state. unfold replies. cbn [app].
  do 2 match goal with
  | |- context [async_run (ReplyArrives :: _) ?a] =>
      rewrite (async_run_cons ReplyArrives _ _ _ _
                 (reply_to_hSet a _ _ eq_refl eq_refl));
      tidy_state
  end.
  do 2 match goal with
  | |- context [async_run (ReplyArrives :: _) ?a] =>
      rewrite (async_run_cons ReplyArrives _ _ _ _
                 (reply_to_expire a _ _ _ eq_refl eq_refl
                    (lookup_insert_eq _ _ _)));
      tidy_state
  end.
  unfold array_contents. tidy_state. cbn [Nat.eqb async_run async_ret visible].
  rewrite <- !app_assoc. fold both.
  unfold submitted, submission, job_payload, hash_at.
  cbn [waitingClients redis sockets uuid_calls].
  rewrite store_after_two_jobs.
  rewrite <- (insert_socket_alter _ _ _
                (fun s => mkWebSocket [] (readyState s)) Hs).
  rewrite alter_insert_eq.
  reflexivity.
Qed.

(** X26. A batch that arrives while the handler of an end-of-turn frame
    awaits the store enters the job of that turn: the handler publishes,
    after the second reply, the array as it then is, with the batches of the
    turn followed by the late ones, and then gives the socket a new, empty
    array, so that no later turn sees the late batches. *)
Theorem late_batches_enter_the_pending_job (w : World) (ws : nat)
  (s : WebSocket) (appends late : list string)
  (batches late_batches : list JSValue) (eot : string) (tone : JSValue)
  (text : string) :
  sockets w !! ws = Some s ->
  Forall2 append_frame appends batches ->
  Forall2 append_frame late late_batches ->
  landmarkSequences s ++ batches <> [] ->
  end_of_turn_frame eot tone ->
  redis_argument (js_or tone (JStr "Casual")) = Return text ->
  let id := uuidv4 (uuid_calls w) in
  visible
    (async_run
       (frames_of ws (appends ++ [eot]) ++ frames_of ws late ++ replies)
       (settled w))
  = (Return tt, submitted w ws id text,
     [submission id (landmarkSequences s ++ batches ++ late_batches) tone]).
Proof.
  intros Hs H1 H2 Hne Heot Harg id.
  unfold frames_of at 1. rewrite map_app, <- !app_assoc.
  fold (frames_of ws appends).
  rewrite (async_run_app _ _ _ _ _
             (async_appends ws _ _ H1 (settled w) s Hs)).
  cbn [map app settled now generations detached awaiting].
  match goal with
  | |- context [async_run (FrameArrives ws eot :: _) ?a] =>
      rewrite (async_run_cons (FrameArrives ws eot) _ _ _ _
                 (begin_end_nonempty a ws _ eot tone text
                    (lookup_insert_eq _ _ _) Hne Heot Harg))
  end.
  tidy_state.
  match goal with
  | |- context [async_run (frames_of ws late ++ _) ?a] =>
      rewrite (async_run_app _ _ _ _ _
                 (async_appends ws _ _ H2 a _ (lookup_insert_eq _ _ _)))
  end.
  tidy_state. unfold replies.
  match goal with
  | |- context [async_run (ReplyArrives :: _) ?a] =>
      rewrite (async_run_cons ReplyArrives _ _ _ _
                 (reply_to_hSet a _ _ eq_refl eq_refl));
      tidy_state
  end.
  match goal with
  | |- context [async_run (ReplyArrives :: _) ?a] =>
      rewrite (async_run_cons ReplyArrives _ _ _ _
                 (reply_to_expire a _ _ _ eq_refl eq_refl
                    (lookup_insert_eq _ _ _)));
      tidy_state
  end.
  unfold array_contents. tidy_state. cbn [Nat.eqb async_run async_ret visible].
  rewrite <- !app_assoc.
  unfold submitted, submission, job_payload, hash_at, hset.
  cbn [waitingClients redis sockets uuid_calls].
  rewrite alter_insert_eq.
  rewrite <- (insert_socket_alter _ _ _
                (fun s => mkWebSocket [] (readyState s)) Hs).
  reflexivity.
Qed.

(** X5. Two turns in a row on one socket, with the handler cut at its
    awaits.  When the replies to the store commands of the first turn arrive
    before the frames of the second turn, the jobs are separate: the first
    holds the batches of the first turn under the first identity drawn, the
    second the batches of the second turn under the next identity.  When the
    frames of the second turn are handled while the handler of the first
    still awaits the store, the two handlers publish the one array that both
    payloads refer to: each of the two jobs holds the batches of both turns.
    The world ends the same either way. *)
Theorem consecutive_turns_and_the_awaited_store (w : World) (ws : nat)
  (s : WebSocket) (appends1 appends2 : list string)
  (batches1 batches2 : list JSValue) (eot1 eot2 : string)
  (tone1 tone2 : JSValue) (text1 text2 : string) :
  sockets w !! ws = Some s ->
  landmarkSequences s = [] ->
  Forall2 append_frame appends1 batches1 ->
  Forall2 append_frame appends2 batches2 ->
  batches1 <> [] ->
  batches2 <> [] ->
  end_of_turn_frame eot1 tone1 ->
  end_of_turn_frame eot2 tone2 ->
  redis_argument (js_or tone1 (JStr "Casual")) = Return text1 ->
  redis_argument (js_or tone2 (JStr "Casual")) = Return text2 ->
  let id1 := uuidv4 (uuid_calls w) in
  let id2 := uuidv4 (S (uuid_calls w)) in
  let turn1 := frames_of ws (appends1 ++ [eot1]) in
  let turn2 := frames_of ws (appends2 ++ [eot2]) in
  let after := submitted (submitted w ws id1 text1) ws id2 text2 in
  visible (async_run (turn1 ++ replies ++ turn2 ++ replies) (settled w))
  = (Return tt, after,
     [submission id1 batches1 tone1; submission id2 batches2 tone2]) /\
  visible (async_run (turn1 ++ turn2 ++ replies ++ replies) (settled w))
  = (Return tt, after,
     [submission id1 (batches1 ++ batches2) tone1;
      submission id2 (batches1 ++ batches2) tone2]).
Proof.
  intros Hs Hempty H1 H2 Hne1 Hne2 Heot1 Heot2 Harg1 Harg2
    id1 id2 turn1 turn2 after.
  split.
  - assert (Hbuf1 : landmarkSequences s ++ batches1 <> [])
      by now rewrite Hempty.
    destruct (async_turn (settled w) ws s appends1 batches1 eot1 tone1 text1
                eq_refl Hs H1 Hbuf1 Heot1 Harg1)
      as (a1 & Hrun1 & Hnow1 & Hidle1).
    cbn [settled now] in Hrun1, Hnow1. fold id1 turn1 in Hrun1, Hnow1.
    assert (Hs1 : sockets (now a1) !! ws = Some (mkWebSocket [] (readyState s))).
    { rewrite Hnow1. unfold submitted. cbn [sockets].
      now rewrite lookup_alter_eq, Hs. }
    destruct (async_turn a1 ws _ appends2 batches2 eot2 tone2 text2
                Hidle1 Hs1 H2 Hne2 Heot2 Harg2)
      as (a2 & Hrun2 & Hnow2 & Hidle2).
    rewrite Hnow1 in Hrun2, Hnow2.
    change (uuid_calls (submitted w ws id1 text1)) with (S (uuid_calls w))
      in Hrun2, Hnow2.
    fold id2 turn2 in Hrun2, Hnow2. cbn [landmarkSequences app] in Hrun2.
    rewrite app_assoc, (async_run_app _ _ _ _ _ Hrun1), Hrun2.
    cbn [visible app]. now rewrite Hnow2, Hempty.
  - rewrite <- (app_nil_l (batches1 ++ batches2)), <- Hempty.
    apply race_run; try assumption. now rewrite Hempty.
Qed.

(** ** More about the aggregation barrier *)

(** X6. The barrier never throws and acknowledges every notification, after
    anything it publishes: with both fields in the record it publishes the
    merged payload, deletes the key and acknowledges; with a field missing,
    the record absent or empty, it only acknowledges. *)
Theorem notification_always_acknowledged (w : World) (msg : Message) :
  let key := redisKey (correlationId (properties msg)) in
  let jobParts := hash_at w key in
  handleAggregationNotification (Some msg) w
  = match jobParts !! "raw_gloss", jobParts !! "dominant_emotion" with
    | Some _, Some _ =>
        (Return tt, set_redis (delete key) w, [forward msg jobParts; Ack msg])
    | _, _ => (Return tt, w, [Ack msg])
    end.
Proof.
  intros key jobParts.
  destruct (jobParts !! "raw_gloss") as [g|] eqn:Hg.
  - destruct (jobParts !! "dominant_emotion") as [e|] eqn:He.
    + apply (notification_complete w msg g e Hg He).
    + apply notification_incomplete. now right.
  - apply notification_incomplete. now left.
Qed.

(** X7. The barrier touches one key of the store and nothing else: the
    registry, the sockets and every other record are as before, whatever the
    notification. *)
Theorem notification_touches_one_record (w : World) (msg : Message)
  (key' : string) :
  key' <> redisKey (correlationId (properties msg)) ->
  let w' := snd (fst (handleAggregationNotification (Some msg) w)) in
  waitingClients w' = waitingClients w /\
  sockets w' = sockets w /\
  redis w' !! key' = redis w !! key'.
Proof.
  intros Hne w'. subst w'.
  set (key := redisKey (correlationId (properties msg))) in *.
  destruct (hash_at w key !! "raw_gloss") as [g|] eqn:Hg.
  - destruct (hash_at w key !! "dominant_emotion") as [e|] eqn:He.
    + rewrite (notification_complete w msg g e Hg He).
      cbn [fst snd set_redis waitingClients sockets redis].
      repeat split. fold key. apply lookup_delete_ne. congruence.
    + rewrite (notification_incomplete w msg (or_intror He)). now cbn.
  - rewrite (notification_incomplete w msg (or_introl Hg)). now cbn.
Qed.

(** X8. In the payload that the barrier forwards, the two outputs are the
    stored strings even when they are empty, while the tone is the stored
    tone only when it is stored and not empty, and ['Casual'] otherwise. *)
Theorem forwarded_tone_is_stored_or_Casual (w : World) (msg : Message)
  (g e : string) :
  let key := redisKey (correlationId (properties msg)) in
  hash_at w key !! "raw_gloss" = Some g ->
  hash_at w key !! "dominant_emotion" = Some e ->
  let user_tone :=
    match hash_at w key !! "user_tone" with
    | Some t => if String.eqb t EmptyString then "Casual" else t
    | None => "Casual"
    end in
  handleAggregationNotification (Some msg) w
  = (Return tt, set_redis (delete key) w,
     [Publish JOBS_EXCHANGE "gemini_task"
        (Buffer_from
           (JSON_stringify
              (JObj [("raw_gloss", JStr g);
                     ("dominant_emotion", JStr e);
                     ("user_tone", JStr user_tone)])))
        (mkProperties (correlationId (properties msg))
                      (replyTo (properties msg)));
      Ack msg]).
Proof.
  intros key Hg He user_tone.
  rewrite (notification_complete w msg g e Hg He). fold key.
  unfold forward, merged_payload, jobParts_get, user_tone. rewrite Hg, He.
  destruct (hash_at w key !! "user_tone") as [t|]; [|reflexivity].
  unfold js_or, ToBoolean. now destruct (String.eqb t EmptyString).
Qed.

(** ** More about the result and dead-letter consumers *)

Lemma handleDeadLetterMessage_unregistered (w : World) (msg : Message) :
  resolve w (correlationId (properties msg)) = None ->
  handleDeadLetterMessage (Some msg) w = (Return tt, w, [Ack msg]).
Proof.
  intros H. unfold handleDeadLetterMessage. step.
  rewrite (bind_Return _ _ _ _ _ _ (waitingClients_get_run w _)), H.
  reflexivity.
Qed.

Lemma handleDeadLetterMessage_not_open (w : World) (msg : Message)
  (ws : nat) (s : WebSocket) :
  resolve w (correlationId (properties msg)) = Some ws ->
  sockets w !! ws = Some s ->
  readyState s <> OPEN ->
  handleDeadLetterMessage (Some msg) w = (Return tt, w, [Ack msg]).
Proof.
  intros Hreg Hs Hopen. unfold handleDeadLetterMessage.
  step. rewrite (bind_Return _ _ _ _ _ _ (waitingClients_get_run w _)), Hreg.
  cbv beta iota. step.
  destruct (readyState s); try congruence; reflexivity.
Qed.

Lemma handleDeadLetterMessage_throws (w : World) (msg : Message)
  (ws : nat) (s : WebSocket) (err : JSError) :
  resolve w (correlationId (properties msg)) = Some ws ->
  sockets w !! ws = Some s ->
  readyState s = OPEN ->
  (let! failedJob := parse (Buffer_toString (content msg)) in
   lift (get_prop failedJob "sentence")) w = (Throw err, w, []) ->
  handleDeadLetterMessage (Some msg) w = (Throw err, w, [Ack msg]).
Proof.
  intros Hreg Hs Hopen Hthrow. unfold handleDeadLetterMessage.
  step. rewrite (bind_Return _ _ _ _ _ _ (waitingClients_get_run w _)), Hreg.
  cbv beta iota. step. rewrite Hopen. cbv beta iota delta [is_OPEN].
  unfold bind in Hthrow |- *.
  destruct (parse (Buffer_toString (content msg)) w) as [[[job|e0] w1] e1].
  - cbv beta iota in Hthrow |- *.
    unfold lift in Hthrow |- *.
    destruct (get_prop job "sentence"); [discriminate|].
    injection Hthrow as -> -> ->. reflexivity.
  - injection Hthrow as -> -> ->. reflexivity.
Qed.

(** X9. A result or a dead-letter message for an identity whose socket is
    no longer open is acknowledged and dropped: nothing is sent, nothing is
    thrown, the world (the registry entry included) is unchanged, and the
    payload of the dead letter is not even parsed. *)
Theorem delivery_to_closed_socket_is_dropped (w : World) (msg : Message)
  (ws : nat) (s : WebSocket) :
  resolve w (correlationId (properties msg)) = Some ws ->
  sockets w !! ws = Some s ->
  readyState s <> OPEN ->
  handleResultMessage (Some msg) w = (Return tt, w, [Ack msg]) /\
  handleDeadLetterMessage (Some msg) w = (Return tt, w, [Ack msg]).
Proof.
  intros Hreg Hs Hopen. split.
  - destruct (correlationId (properties msg)) as [id|] eqn:Hid;
      [|discriminate].
    apply (handleResultMessage_not_open w msg id ws s Hid Hreg Hs Hopen).
  - apply (handleDeadLetterMessage_not_open w msg ws s Hreg Hs Hopen).
Qed.

(** X10. A dead-letter message whose identity has no entry in the registry
    is only acknowledged, whatever its payload. *)
Theorem dead_letter_without_entry_is_only_acknowledged (w : World)
  (msg : Message) :
  resolve w (correlationId (properties msg)) = None ->
  handleDeadLetterMessage (Some msg) w = (Return tt, w, [Ack msg]).
Proof. apply handleDeadLetterMessage_unregistered. Qed.

(** X11. A dead-letter message for a waiting, open socket whose payload is
    not JSON, or is the JSON value [null], makes the consumer throw
    ([SyntaxError], [TypeError]) after the message has been acknowledged:
    no frame is sent and the identity stays in the registry. *)
Theorem dead_letter_with_bad_payload_throws (w : World) (msg : Message)
  (ws : nat) (s : WebSocket) :
  resolve w (correlationId (properties msg)) = Some ws ->
  sockets w !! ws = Some s ->
  readyState s = OPEN ->
  (JSON_parse (Buffer_toString (content msg)) = None ->
   handleDeadLetterMessage (Some msg) w = (Throw SyntaxError, w, [Ack msg])) /\
  (JSON_parse (Buffer_toString (content msg)) = Some JNull ->
   handleDeadLetterMessage (Some msg) w
   = (Throw (TypeError "Cannot read properties of null"), w, [Ack msg])).
Proof.
  intros Hreg Hs Hopen. split; intros Hparse;
    apply (handleDeadLetterMessage_throws w msg ws s _ Hreg Hs Hopen);
    unfold bind, parse; rewrite Hparse; reflexivity.
Qed.

(** X12. A dead-letter message for a waiting, open socket whose payload has
    no [sentence] still produces the failure frame; its text then quotes the
    word [undefined]. *)
Theorem dead_letter_without_sentence_says_undefined (w : World)
  (msg : Message) (id : string) (ws : nat) (s : WebSocket)
  (failedJob : JSValue) :
  correlationId (properties msg) = Some id ->
  waitingClients w !! id = Some ws ->
  sockets w !! ws = Some s ->
  readyState s = OPEN ->
  JSON_parse (Buffer_toString (content msg)) = Some failedJob ->
  get_prop failedJob "sentence" = Return JUndefined ->
  handleDeadLetterMessage (Some msg) w
  = (Return tt, set_waitingClients (delete id) w,
     [Ack msg;
      Send ws (JSON_stringify
                 (JObj [("fallbackText",
                         JStr ("Audio unavailable. Translation: " +:+ dquote
                               +:+ "undefined" +:+ dquote));
                        ("conversationTone", JStr "Error")]))]).
Proof.
  intros Hid Hreg Hs Hopen Hparse Hsentence.
  apply (handleDeadLetterMessage_open _ _ _ _ _ _ _
           Hid Hreg Hs Hopen Hparse Hsentence).
Qed.

(** ** A job from submission to delivery *)

Lemma js_or_string (tone : JSValue) (text : string) :
  js_or tone (JStr "Casual") = JStr text ->
  js_or (JStr text) (JStr "Casual") = JStr text.
Proof.
  unfold js_or. destruct (ToBoolean tone) eqn:Htone.
  - intros ->. now rewrite Htone.
  - intros [= <-]. reflexivity.
Qed.

Lemma hash_at_submitted (w : World) (ws : nat) (id text : string) :
  hash_at (submitted w ws id text) (redisKey (Some id))
  = <["user_tone" := text]> (hash_at w (redisKey (Some id))).
Proof.
  unfold hash_at at 1, submitted. cbn [redis].
  now rewrite lookup_insert_eq.
Qed.

(** X13. Register, resolve, remove: when a turn has published a job under an
    identity that was not in the registry and the result for that identity
    arrives while the socket is open, the result is written to that socket
    and the registry is again what it was before the turn. *)
Theorem job_entry_is_removed_by_its_result (w : World) (ws : nat)
  (s : WebSocket) (appends : list string) (batches : list JSValue)
  (eot : string) (tone : JSValue) (text : string) (msg : Message) :
  sockets w !! ws = Some s ->
  readyState s = OPEN ->
  landmarkSequences s = [] ->
  Forall2 append_frame appends batches ->
  batches <> [] ->
  end_of_turn_frame eot tone ->
  redis_argument (js_or tone (JStr "Casual")) = Return text ->
  let id := uuidv4 (uuid_calls w) in
  waitingClients w !! id = None ->
  correlationId (properties msg) = Some id ->
  let '(outcome, w', effects) :=
    run_all (map (on_message ws) (appends ++ [eot])
             ++ [handleResultMessage (Some msg)]) w in
  outcome = Return tt /\
  effects = [submission id batches tone; Ack msg;
             Send ws (Buffer_toString (content msg))] /\
  waitingClients w' = waitingClients w.
Proof.
  intros Hs Hopen Hempty Happends Hne Heot Harg id Hfresh Hid.
  pose proof (turn_run w ws s appends batches eot tone text
                Hs Happends Heot Harg) as Hturn.
  rewrite Hempty in Hturn. cbn [app] in Hturn.
  destruct batches as [|b batches]; [congruence|].
  rewrite (run_all_app _ _ _ _ _ Hturn). fold id.
  set (w1 := submitted w ws id text).
  assert (Hreg : waitingClients w1 !! id = Some ws) by apply lookup_insert_eq.
  assert (Hs1 : sockets w1 !! ws = Some (mkWebSocket [] (readyState s))).
  { unfold w1, submitted. cbn [sockets]. now rewrite lookup_alter_eq, Hs. }
  rewrite (run_all_cons _ _ _ _ _
             (handleResultMessage_open w1 msg id ws _ Hid Hreg Hs1 Hopen)).
  rewrite run_all_nil. cbn [app].
  split; [reflexivity|]. split; [reflexivity|].
  unfold w1, submitted, set_waitingClients. cbn [waitingClients].
  now apply delete_insert_id.
Qed.

(** X14. The tone of a turn reaches the second stage: after an end-of-turn
    frame whose tone is a string (or is missing, which makes it ['Casual']),
    once the workers have written both fields, the notification forwards a
    payload whose [user_tone] is the [user_tone] of the job published to the
    first stage, under the same identity. *)
Theorem tone_of_turn_reaches_second_stage (w : World) (ws : nat)
  (s : WebSocket) (eot : string) (tone : JSValue) (text g e : string)
  (n : Message) :
  sockets w !! ws = Some s ->
  landmarkSequences s <> [] ->
  end_of_turn_frame eot tone ->
  js_or tone (JStr "Casual") = JStr text ->
  let id := uuidv4 (uuid_calls w) in
  correlationId (properties n) = Some id ->
  run_all [on_message ws eot;
           worker_hSet id "raw_gloss" g;
           worker_hSet id "dominant_emotion" e;
           handleAggregationNotification (Some n)] w
  = (Return tt,
     set_redis (delete (redisKey (Some id))) (submitted w ws id text),
     [Publish JOBS_EXCHANGE "recognition_task"
        (Buffer_from
           (JSON_stringify
              (JObj [("landmark_data", JArr (landmarkSequences s));
                     ("user_tone", JStr text)])))
        (mkProperties (Some id) (Some RESULTS_QUEUE));
      Publish JOBS_EXCHANGE "gemini_task"
        (Buffer_from
           (JSON_stringify
              (JObj [("raw_gloss", JStr g);
                     ("dominant_emotion", JStr e);
                     ("user_tone", JStr text)])))
        (mkProperties (Some id) (replyTo (properties n)));
      Ack n]).
Proof.
  intros Hs Hne Heot Htone id Hid.
  assert (Harg : redis_argument (js_or tone (JStr "Casual")) = Return text)
    by now rewrite Htone.
  rewrite (run_all_cons _ _ _ _ _
             (on_message_end_nonempty w ws s eot tone text Hs Hne Heot Harg)).
  fold id. set (key := redisKey (Some id)).
  set (w1 := submitted w ws id text).
  rewrite (run_all_cons _ _ _ _ _ (worker_hSet_run w1 id "raw_gloss" g)).
  rewrite (run_all_cons _ _ _ _ _ (worker_hSet_run _ id "dominant_emotion" e)).
  fold key.
  set (w3 := set_redis (hset key "dominant_emotion" e)
               (set_redis (hset key "raw_gloss" g) w1)).
  assert (Hparts : hash_at w3 key
                   = <["dominant_emotion" := e]>
                       (<["raw_gloss" := g]>
                          (<["user_tone" := text]> (hash_at w key)))).
  { unfold w3. rewrite !hash_at_hset. unfold w1, key.
    now rewrite hash_at_submitted. }
  pose proof (notification_complete w3 n g e) as Hc.
  cbv zeta in Hc. rewrite Hid in Hc. fold key in Hc.
  rewrite (run_all_cons _ _ _ _ _
             (Hc ltac:(rewrite Hparts, lookup_insert_ne, lookup_insert_eq
                         by discriminate; reflexivity)
                 ltac:(rewrite Hparts; apply lookup_insert_eq))).
  rewrite run_all_nil. cbn [app]. f_equal; [f_equal|].
  - unfold w3, set_redis. cbn [redis waitingClients sockets uuid_calls].
    now rewrite !delete_hset.
  - unfold submission, job_payload, forward, merged_payload, jobParts_get.
    rewrite Htone, Hid, Hparts.
    rewrite (lookup_insert_ne _ "dominant_emotion" "raw_gloss") by discriminate.
    rewrite !lookup_insert_eq.
    rewrite !(lookup_insert_ne _ _ "user_tone") by discriminate.
    rewrite lookup_insert_eq.
    now rewrite (js_or_string tone text Htone).
Qed.

(** ** The client's socket listener *)

Lemma act_bind_Return {A B} (m : Action A) (k : A -> Action B) ui a ui1 e1 :
  m ui = (Return a, ui1, e1) ->
  act_bind m k ui = (let '(r, ui2, e2) := k a ui1 in (r, ui2, e1 ++ e2)).
Proof. intros H. unfold act_bind. now rewrite H. Qed.

Lemma act_bind_Throw {A B} (m : Action A) (k : A -> Action B) ui err ui1 e1 :
  m ui = (Throw err, ui1, e1) -> act_bind m k ui = (Throw err, ui1, e1).
Proof. intros H. unfold act_bind. now rewrite H. Qed.

Lemma client_parse_run (ui : UI) (text : string) (v : JSValue) :
  JSON_parse text = Some v -> client_parse text ui = (Return v, ui, []).
Proof. intros H. unfold client_parse. now rewrite H. Qed.

Lemma act_lift_run {A} (ui : UI) (o : Outcome A) (a : A) :
  o = Return a -> act_lift o ui = (Return a, ui, []).
Proof. now intros ->. Qed.

Hint Resolve client_parse_run act_lift_run : run.

Ltac astep :=
  first
    [ erewrite act_bind_Return by (first [ reflexivity | solve [eauto with run] ])
    | erewrite act_bind_Throw by (first [ reflexivity | solve [eauto with run] ]) ];
  cbv beta iota.

Lemma onmessage_not_playable (ui : UI) (event_data : string)
  (data audioData sentence conversationTone fallbackText error : JSValue) :
  JSON_parse event_data = Some data ->
  get_prop data "audioData" = Return audioData ->
  get_prop data "sentence" = Return sentence ->
  get_prop data "conversationTone" = Return conversationTone ->
  get_prop data "fallbackText" = Return fallbackText ->
  get_prop data "error" = Return error ->
  ToBoolean audioData && ToBoolean sentence = false ->
  onmessage event_data ui
  = (Return tt,
     shown conversationTone fallbackText error (setNotification None ui), []).
Proof.
  intros Hparse Ha Hs Ht Hf He Hno. unfold onmessage. do 3 astep.
  assert (Hplay : exists p, js_and audioData (get_prop data "sentence") = Return p
                            /\ ToBoolean p = false).
  { unfold js_and. rewrite Hs.
    destruct (ToBoolean audioData) eqn:Hb; eauto. }
  destruct Hplay as (p & Hp & Hfalse).
  astep. rewrite Hfalse. astep. unfold shown.
  destruct (ToBoolean conversationTone); [reflexivity|].
  astep. destruct (ToBoolean fallbackText); [reflexivity|].
  astep. destruct (ToBoolean error); reflexivity.
Qed.

(** X15. The failure frame that the dead-letter consumer builds carries both
    [fallbackText] and [conversationTone]; the client tests
    [conversationTone] first, so on that frame it sets the detected tone to
    ['Error'], clears the toast and never shows the fallback text. *)
Theorem failure_frame_only_sets_the_tone (ui : UI) (S_ : string) :
  let failure :=
    JObj [("fallbackText",
           JStr ("Audio unavailable. Translation: " +:+ dquote
                 +:+ S_ +:+ dquote));
          ("conversationTone", JStr "Error")] in
  JSON_parse (JSON_stringify failure) = Some failure ->
  onmessage (JSON_stringify failure) ui
  = (Return tt, mkUI None (JStr "Error") (subtitleText ui) (isPlayingAudio ui)
                     (subtitleTimeoutRef ui), []).
Proof.
  intros failure Hparse.
  exact (onmessage_not_playable ui _ failure _ _ _ _ _ Hparse
           eq_refl eq_refl eq_refl eq_refl eq_refl eq_refl).
Qed.


(** X17. A frame that starts no audio and has no truthy [conversationTone]
    shows its [fallbackText] as a warning toast; without a truthy
    [fallbackText] it shows its [error] as an error toast; without that either
    it only clears the toast.  Nothing else changes. *)
Theorem toast_shows_fallback_then_error (ui : UI) (event_data : string)
  (data audioData sentence conversationTone fallbackText error : JSValue) :
  JSON_parse event_data = Some data ->
  get_prop data "audioData" = Return audioData ->
  get_prop data "sentence" = Return sentence ->
  get_prop data "conversationTone" = Return conversationTone ->
  get_prop data "fallbackText" = Return fallbackText ->
  get_prop data "error" = Return error ->
  ToBoolean audioData && ToBoolean sentence = false ->
  ToBoolean conversationTone = false ->
  onmessage event_data ui
  = (Return tt,
     mkUI (if ToBoolean fallbackText then Some (mkToast fallbackText "warning")
           else if ToBoolean error then Some (mkToast error "error")
                else None)
          (detectedTone ui) (subtitleText ui) (isPlayingAudio ui)
          (subtitleTimeoutRef ui),
     []).
Proof.
  intros Hparse Ha Hs Ht Hf He Hno Htone.
  rewrite (onmessage_not_playable ui _ _ _ _ _ _ _ Hparse Ha Hs Ht Hf He Hno).
  unfold shown. rewrite Htone.
  destruct (ToBoolean fallbackText), (ToBoolean error); reflexivity.
Qed.

(** X18. A frame that is not JSON makes the listener throw before it has
    touched anything, so the toast on display stays; the JSON value [null]
    makes it throw after the toast has been cleared. *)
Theorem client_frame_that_cannot_be_read (ui : UI) (event_data : string) :
  (JSON_parse event_data = None ->
   onmessage event_data ui = (Throw SyntaxError, ui, [])) /\
  (JSON_parse event_data = Some JNull ->
   onmessage event_data ui
   = (Throw (TypeError "Cannot read properties of null"),
      setNotification None ui, [])).
Proof.
  split; intros Hparse; unfold onmessage.
  - apply act_bind_Throw. unfold client_parse. now rewrite Hparse.
  - do 2 astep. reflexivity.
Qed.

(** ** The client's capture loop *)

Lemma length_concat_map (f : Landmark -> list JSValue) (k : nat)
  (l : option (list Landmark)) :
  (forall res, length (f res) = k) ->
  length (concat (map_or_empty f l)) = k * length (default [] l).
Proof.
  intros Hf. destruct l as [l|]; simpl; [|now rewrite Nat.mul_0_r].
  induction l as [|res l IH]; simpl; [now rewrite Nat.mul_0_r|].
  rewrite length_app, Hf, IH, Nat.mul_succ_r. apply Nat.add_comm.
Qed.

(** X19. The vector captured for a camera frame holds four numbers for each
    pose landmark and three for each hand and face landmark, a missing group
    counting for none. *)
Theorem landmarks_length (results : Results) :
  length (landmarks results)
  = 4 * length (default [] (poseLandmarks results))
    + 3 * (length (default [] (leftHandLandmarks results))
           + length (default [] (rightHandLandmarks results))
           + length (default [] (faceLandmarks results))).
Proof.
  unfold landmarks. rewrite !concat_app, !length_app.
  rewrite (length_concat_map pose_point 4) by reflexivity.
  rewrite !(length_concat_map point 3) by reflexivity.
  lia.
Qed.

Lemma auto_timers_keeps (results : Results) (r : Recorder) :
  let r' := auto_timers results r in
  isRecording r' = isRecording r /\ mode r' = mode r /\
  sequenceRef r' = sequenceRef r /\ wsRef r' = wsRef r /\
  tone r' = tone r /\ uiMode r' = uiMode r.
Proof.
  destruct r as [rec m st sp t um sq wsr]. unfold auto_timers.
  destruct (handsVisible results), rec, st, sp; cbn; repeat split.
Qed.

Lemma after_timers_keeps (results : Results) (r : Recorder) :
  let r' := after_timers results r in
  isRecording r' = isRecording r /\ mode r' = mode r /\
  sequenceRef r' = sequenceRef r /\ wsRef r' = wsRef r /\
  tone r' = tone r /\ uiMode r' = uiMode r.
Proof.
  unfold after_timers. destruct (mode r) eqn:Hmode.
  - rewrite <- Hmode. apply auto_timers_keeps.
  - cbn. now rewrite Hmode.
Qed.

Lemma onResults_unfold (results : Results) (r : Recorder) :
  onResults results r
  = let r1 := after_timers results r in
    let r2 := if isRecording r
              then set_sequenceRef
                     (sequenceRef r ++ [JArr (landmarks results)]) r1
              else r1 in
    if (length (sequenceRef r2) =? sequenceBuffer)%nat
    then (set_sequenceRef [] r2,
          if wsRef_open r then [signing_data_frame (sequenceRef r2)] else [])
    else (r2, []).
Proof.
  unfold onResults. fold (after_timers results r).
  destruct (after_timers_keeps results r) as (Hrec & _ & Hseq & Hws & _).
  cbv zeta. rewrite Hrec, Hseq.
  destruct (isRecording r); unfold wsRef_open; cbn [wsRef set_sequenceRef];
    now rewrite Hws.
Qed.

Lemma client_step_invariant (ev : ClientEvent) (r : Recorder) :
  length (sequenceRef r) < sequenceBuffer ->
  let '(r', sent) := client_step ev r in
  length (sequenceRef r') < sequenceBuffer /\ Forall client_frame sent.
Proof.
  intros Hlen. destruct ev as [results| | | | |]; cbn [client_step].
  - rewrite onResults_unfold. cbv zeta.
    destruct (after_timers_keeps results r) as (_ & _ & Hseq & _).
    destruct (isRecording r).
    + cbn [sequenceRef set_sequenceRef].
      destruct (Nat.eqb_spec (length (sequenceRef r ++ [JArr (landmarks results)]))
                  sequenceBuffer) as [Hfull|Hpart].
      * split; [cbn; unfold sequenceBuffer; lia|].
        destruct (wsRef_open r); [|constructor].
        constructor; [|constructor].
        right. eexists. split; [exact Hfull | reflexivity].
      * split; [|constructor]. cbn [sequenceRef set_sequenceRef].
        rewrite length_app in Hpart |- *. cbn [length] in *. lia.
    + rewrite Hseq.
      destruct (Nat.eqb_spec (length (sequenceRef r)) sequenceBuffer);
        [lia|]. split; [now rewrite Hseq | constructor].
  - destruct (startTimeout r); (split; [exact Hlen|constructor]).
  - destruct (stopTimeout r); [|split; [exact Hlen|constructor]].
    unfold stopTimeout_fires. split; [exact Hlen|].
    destruct (wsRef_open _); [|constructor].
    constructor; [|constructor]. left. eauto.
  - split; [exact Hlen|constructor].
  - unfold handleManualStart. destruct (mode r);
      (split; [exact Hlen|constructor]).
  - unfold handleManualStop. destruct (mode r);
      [split; [exact Hlen|constructor]|].
    split; [exact Hlen|]. destruct (wsRef_open _); [|constructor].
    constructor; [|constructor]. left. eauto.
Qed.

(** X20. Through any sequence of camera frames, timer firings and button
    presses, the capture buffer stays below thirty frames, and every frame
    written to the socket is either an end-of-turn frame or an append frame
    whose batch has exactly thirty camera frames. *)
Theorem capture_buffer_stays_below_thirty (evs : list ClientEvent)
  (r : Recorder) :
  length (sequenceRef r) < sequenceBuffer ->
  let '(r', sent) := client_run evs r in
  length (sequenceRef r') < sequenceBuffer /\ Forall client_frame sent.
Proof.
  revert r. induction evs as [|ev evs IH]; intros r Hlen; cbn [client_run].
  - split; [assumption|constructor].
  - pose proof (client_step_invariant ev r Hlen) as Hstep.
    destruct (client_step ev r) as [r1 sent1]. destruct Hstep as [Hlen1 Hsent1].
    specialize (IH r1 Hlen1). destruct (client_run evs r1) as [r2 sent2].
    destruct IH as [Hlen2 Hsent2]. split; [assumption|].
    now apply Forall_app.
Qed.

(** X21. The thirtieth frame of a batch: while recording with twenty-nine
    frames in the buffer, the next camera frame empties the buffer; the batch
    of thirty is written to the socket when it is open and is discarded when
    it is not. *)
Theorem full_batch_is_sent_or_discarded (results : Results) (r : Recorder) :
  isRecording r = true ->
  length (sequenceRef r) = 29 ->
  let batch := sequenceRef r ++ [JArr (landmarks results)] in
  let '(r', sent) := onResults results r in
  sequenceRef r' = [] /\
  sent = if wsRef_open r then [signing_data_frame batch] else [].
Proof.
  intros Hrec Hlen batch. rewrite onResults_unfold. cbv zeta.
  rewrite Hrec. cbn [sequenceRef set_sequenceRef]. fold batch.
  assert (Hfull : (length batch =? sequenceBuffer)%nat = true).
  { apply Nat.eqb_eq. unfold batch. rewrite length_app, Hlen. reflexivity. }
  rewrite Hfull. now split.
Qed.

Lemma client_run_app (evs1 evs2 : list ClientEvent) (r : Recorder) :
  client_run (evs1 ++ evs2) r
  = (let '(r1, sent1) := client_run evs1 r in
     let '(r2, sent2) := client_run evs2 r1 in
     (r2, sent1 ++ sent2)).
Proof.
  revert r. induction evs1 as [|ev evs1 IH]; intros r; cbn [app client_run].
  - now destruct (client_run evs2 r).
  - destruct (client_step ev r) as [r1 sent1]. rewrite IH.
    destruct (client_run evs1 r1) as [r2 sent2].
    destruct (client_run evs2 r2) as [r3 sent3].
    now rewrite app_assoc.
Qed.

Lemma manual_frames_run (frames : list Results) (r : Recorder) :
  mode r = mode_manual ->
  isRecording r = true ->
  length (sequenceRef r) + length frames < sequenceBuffer ->
  client_run (map Frame frames) r
  = (set_sequenceRef
       (sequenceRef r ++ map (fun results => JArr (landmarks results)) frames) r,
     []).
Proof.
  revert r. induction frames as [|results frames IH];
    intros r Hmode Hrec Hlen; cbn [map client_run client_step].
  - destruct r. cbn. now rewrite app_nil_r.
  - rewrite onResults_unfold. unfold after_timers. rewrite Hmode, Hrec.
    cbv zeta. cbn [sequenceRef set_sequenceRef length] in *.
    destruct (Nat.eqb_spec (length (sequenceRef r ++ [JArr (landmarks results)]))
                sequenceBuffer) as [Hfull|_].
    { rewrite length_app in Hfull. cbn [length] in Hfull. lia. }
    rewrite IH.
    + cbn [sequenceRef set_sequenceRef app]. rewrite <- app_assoc.
      destruct r. reflexivity.
    + exact Hmode.
    + exact Hrec.
    + cbn [sequenceRef set_sequenceRef]. rewrite length_app. cbn [length]. lia.
Qed.

Lemma flushed_empty (w : World) (ws : nat) (s : WebSocket) :
  sockets w !! ws = Some s -> landmarkSequences s = [] -> flushed w ws = w.
Proof.
  intros Hs Hempty. destruct w as [wc rd sk n], s as [buf rs].
  unfold flushed, set_sockets.
  cbn [sockets waitingClients redis uuid_calls landmarkSequences] in *.
  subst buf. rewrite <- (insert_socket_alter sk ws _ _ Hs). cbn [readyState].
  now rewrite (insert_id _ _ _ Hs).
Qed.

(** X22. A sentence shorter than one batch makes no job.  In manual mode,
    with the socket open and the capture buffer empty, pressing Start,
    capturing fewer than thirty camera frames and pressing Stop writes the
    end-of-turn frame and nothing else; the captured frames stay in the
    buffer.  A server socket with an empty buffer that receives what was
    written publishes nothing. *)
Theorem short_sentence_makes_no_job (r : Recorder) (frames : list Results)
  (w : World) (ws : nat) (s : WebSocket) (parsed_tone : JSValue) :
  mode r = mode_manual ->
  wsRef_open r = true ->
  sequenceRef r = [] ->
  length frames < sequenceBuffer ->
  sockets w !! ws = Some s ->
  landmarkSequences s = [] ->
  end_of_turn_frame (end_of_sentence_frame (tone r)) parsed_tone ->
  let '(r', sent) :=
    client_run (ManualStart :: map Frame frames ++ [ManualStop]) r in
  sent = [end_of_sentence_frame (tone r)] /\
  sequenceRef r' = map (fun results => JArr (landmarks results)) frames /\
  run_all (map (on_message ws) sent) w = (Return tt, w, []).
Proof.
  intros Hmode Hopen Hbuf Hlen Hs Hempty Hframe.
  assert (Hstart : handleManualStart r = set_isRecording true r)
    by (unfold handleManualStart; now rewrite Hmode).
  set (captured := map (fun results => JArr (landmarks results)) frames).
  assert (Hstop : handleManualStop
                    (set_sequenceRef captured (set_isRecording true r))
                  = (set_isRecording false
                       (set_sequenceRef captured (set_isRecording true r)),
                     [end_of_sentence_frame (tone r)])).
  { unfold handleManualStop. cbn [mode set_sequenceRef set_isRecording].
    rewrite Hmode. unfold wsRef_open in *.
    cbn [wsRef set_sequenceRef set_isRecording tone]. now rewrite Hopen. }
  cbn [client_run client_step]. rewrite Hstart, client_run_app.
  rewrite (manual_frames_run frames (set_isRecording true r))
    by (cbn; rewrite ?Hbuf; cbn; auto).
  cbn [client_run client_step sequenceRef set_isRecording].
  rewrite Hbuf. cbn [app]. fold captured. rewrite Hstop. cbn [app].
  split; [reflexivity|]. split; [reflexivity|].
  cbn [map].
  rewrite (run_all_cons _ _ _ _ _
             (on_message_end_empty w ws s _ parsed_tone Hs Hempty Hframe)).
  rewrite run_all_nil. cbn [app].
  now rewrite (flushed_empty w ws s Hs Hempty).
Qed.

Lemma onResults_keeps_timers (results : Results) (r : Recorder) :
  mode r = mode_auto ->
  let r' := fst (onResults results r) in
  mode r' = mode_auto /\
  isRecording r' = isRecording r /\
  (isRecording r = true -> stopTimeout r = true -> stopTimeout r' = true) /\
  (isRecording r = false -> startTimeout r = true -> startTimeout r' = true).
Proof.
  intros Hmode. destruct r as [rec m st sp t um sq wsr].
  cbn in Hmode. subst m. unfold onResults, auto_timers. cbn.
  destruct (handsVisible results), rec, st, sp; cbn;
    match goal with
    | |- context [(?a =? ?b)%nat] => destruct (a =? b)%nat
    end; cbn; repeat split; intros; congruence.
Qed.

(** X23. In automatic mode a camera frame never cancels the timer that is
    about to change the recording state: while recording, a pending stop
    timer stays pending whatever the later frames show (hands coming back
    into view do not cancel it), and while not recording a pending start
    timer stays pending (hands going out of view do not cancel it). *)
Theorem pending_timers_survive_frames (frames : list Results) (r : Recorder) :
  mode r = mode_auto ->
  let r' := fst (client_run (map Frame frames) r) in
  (isRecording r = true -> stopTimeout r = true ->
   isRecording r' = true /\ stopTimeout r' = true) /\
  (isRecording r = false -> startTimeout r = true ->
   isRecording r' = false /\ startTimeout r' = true).
Proof.
  revert r. induction frames as [|results frames IH]; intros r Hmode.
  - cbn. now split.
  - cbn [map client_run client_step].
    pose proof (onResults_keeps_timers results r Hmode) as Hstep.
    destruct (onResults results r) as [r1 sent1]. cbn [fst] in Hstep.
    destruct Hstep as (Hmode1 & Hrec1 & Hstop1 & Hstart1).
    specialize (IH r1 Hmode1).
    destruct (client_run (map Frame frames) r1) as [r2 sent2].
    cbn [fst] in *. destruct IH as [IHstop IHstart]. split.
    + intros Hrec Hstop. apply IHstop; [congruence | now apply Hstop1].
    + intros Hrec Hstart. apply IHstart; [congruence | now apply Hstart1].
Qed.

(** X24. The mode button does not cancel a timer.  In automatic mode, not
    recording and with no start timer pending, a camera frame with a hand in
    view arms the start timer; if the user then switches to manual mode, the
    timer still fires and recording starts, in manual mode, without the
    Start button. *)
Theorem mode_toggle_leaves_start_timer_armed (results : Results)
  (r : Recorder) :
  mode r = mode_auto ->
  uiMode r = mode_auto ->
  isRecording r = false ->
  startTimeout r = false ->
  handsVisible results = true ->
  let r' := fst (client_run [Frame results; ModeToggle; StartTimer] r) in
  mode r' = mode_manual /\ isRecording r' = true.
Proof.
  intros Hmode Hui Hrec Hstart Hhands.
  destruct r as [rec m st sp t um sq wsr]. cbn in Hmode, Hui, Hrec, Hstart.
  subst. cbn [client_run client_step]. unfold onResults, auto_timers.
  rewrite Hhands. cbn.
  destruct (length sq =? sequenceBuffer)%nat; cbn; now split.
Qed.

End Server.

(** ** The frame of a result *)

Lemma byte_in_spec (lo hi : N) (b : Byte.byte) :
  byte_in lo hi b = true <-> (lo <= Byte.to_N b <= hi)%N.
Proof. unfold byte_in. rewrite andb_true_iff, !N.leb_le. tauto. Qed.

Lemma byte_in_false (lo hi : N) (b : Byte.byte) :
  byte_in lo hi b = false <-> ~ (lo <= Byte.to_N b <= hi)%N.
Proof.
  rewrite <- byte_in_spec. destruct (byte_in lo hi b); split; congruence.
Qed.

Lemma byte_is_spec (v : N) (b : Byte.byte) :
  byte_is v b = true <-> Byte.to_N b = v.
Proof. apply N.eqb_eq. Qed.

Lemma lead_ascii (b : Byte.byte) :
  byte_in 0x00 0x7f b = true -> lead b = ([b], Clean).
Proof. intros H. unfold lead. now rewrite H. Qed.

Lemma lead_two (b : Byte.byte) :
  byte_in 0xc2 0xdf b = true -> lead b = ([], Within [b] 0 0x80 0xbf).
Proof.
  intros H. unfold lead. rewrite H.
  replace (byte_in 0x00 0x7f b) with false; [reflexivity|].
  symmetry. apply byte_in_false. apply byte_in_spec in H. lia.
Qed.

Lemma lead_three (b1 b2 : Byte.byte) :
  three_ok b1 b2 = true ->
  exists lower upper,
    lead b1 = ([], Within [b1] 1 lower upper) /\
    byte_in lower upper b2 = true.
Proof.
  unfold three_ok.
  rewrite !orb_true_iff, !andb_true_iff, !byte_in_spec, !byte_is_spec.
  intros H. unfold lead.
  replace (byte_in 0x00 0x7f b1) with false
    by (symmetry; apply byte_in_false; lia).
  replace (byte_in 0xc2 0xdf b1) with false
    by (symmetry; apply byte_in_false; lia).
  replace (byte_in 0xe0 0xef b1) with true
    by (symmetry; apply byte_in_spec; lia).
  do 2 eexists. split; [reflexivity|]. apply byte_in_spec.
  unfold byte_is.
  destruct (N.eqb_spec (Byte.to_N b1) 0xe0), (N.eqb_spec (Byte.to_N b1) 0xed);
    lia.
Qed.

Lemma lead_four (b1 b2 : Byte.byte) :
  four_ok b1 b2 = true ->
  exists lower upper,
    lead b1 = ([], Within [b1] 2 lower upper) /\
    byte_in lower upper b2 = true.
Proof.
  unfold four_ok.
  rewrite !orb_true_iff, !andb_true_iff, !byte_in_spec, !byte_is_spec.
  intros H. unfold lead.
  replace (byte_in 0x00 0x7f b1) with false
    by (symmetry; apply byte_in_false; lia).
  replace (byte_in 0xc2 0xdf b1) with false
    by (symmetry; apply byte_in_false; lia).
  replace (byte_in 0xe0 0xef b1) with false
    by (symmetry; apply byte_in_false; lia).
  replace (byte_in 0xf0 0xf4 b1) with true
    by (symmetry; apply byte_in_spec; lia).
  do 2 eexists. split; [reflexivity|]. apply byte_in_spec.
  unfold byte_is.
  destruct (N.eqb_spec (Byte.to_N b1) 0xf0), (N.eqb_spec (Byte.to_N b1) 0xf4);
    lia.
Qed.

(** Decoding keeps well-formed UTF-8 byte for byte. *)
Lemma decode_well_formed (bytes : list Byte.byte) :
  well_formed bytes = true -> decode Clean bytes = bytes.
Proof.
  remember (length bytes) as n eqn:Hn.
  revert bytes Hn. induction (lt_wf n) as [n _ IH]. intros bytes -> Hwf.
  destruct bytes as [|b1 rest1]; [reflexivity|].
  cbn [well_formed] in Hwf. cbn [decode].
  destruct (byte_in 0x00 0x7f b1) eqn:H1.
  { rewrite (lead_ascii b1 H1). cbn [fst snd app]. f_equal.
    apply (IH (length rest1)); [cbn; lia | reflexivity | exact Hwf]. }
  destruct rest1 as [|b2 rest2]; [discriminate|].
  destruct (byte_in 0xc2 0xdf b1) eqn:H2.
  { apply andb_prop in Hwf as [Hb2 Hrest].
    rewrite (lead_two b1 H2). cbn [fst snd app decode]. rewrite Hb2.
    cbn [app]. do 2 f_equal.
    apply (IH (length rest2)); [cbn; lia | reflexivity | exact Hrest]. }
  destruct rest2 as [|b3 rest3]; [discriminate|].
  destruct (three_ok b1 b2) eqn:H3.
  { apply andb_prop in Hwf as [Hb3 Hrest].
    destruct (lead_three b1 b2 H3) as (lower & upper & -> & Hb2).
    cbn [fst snd app decode]. rewrite Hb2, Hb3. cbn [app]. do 3 f_equal.
    apply (IH (length rest3)); [cbn; lia | reflexivity | exact Hrest]. }
  destruct rest3 as [|b4 rest4]; [discriminate|].
  apply andb_prop in Hwf as [Hwf Hrest].
  apply andb_prop in Hwf as [Hwf Hb4].
  apply andb_prop in Hwf as [H4 Hb3].
  destruct (lead_four b1 b2 H4) as (lower & upper & -> & Hb2).
  cbn [fst snd app decode]. rewrite Hb2, Hb3, Hb4. cbn [app]. do 4 f_equal.
  apply (IH (length rest4)); [cbn; lia | reflexivity | exact Hrest].
Qed.

(** C10, amended. A result message for an identity registered to an open
    socket is acknowledged and its content, decoded as UTF-8 text by
    [msg.content.toString()], is the one frame written to that socket,
    whatever the content is (it is not parsed: the content need not be
    JSON).  The bytes of the frame are the content with every ill-formed
    sequence replaced by U+FFFD, and are the content unchanged when the
    content is well-formed UTF-8. *)
Theorem result_frame_is_content_as_text (w : World) (msg : Message)
  (id : string) (ws : nat) (s : WebSocket) :
  correlationId (properties msg) = Some id ->
  waitingClients w !! id = Some ws ->
  sockets w !! ws = Some s ->
  readyState s = OPEN ->
  let frame := utf8_toString (content msg) in
  handleResultMessage utf8_toString (Some msg) w
  = (Return tt, set_waitingClients (delete id) w, [Ack msg; Send ws frame]) /\
  utf8_bytes frame = decode Clean (content msg) /\
  (well_formed (content msg) = true -> utf8_bytes frame = content msg).
Proof.
  intros Hid Hreg Hs Hopen frame.
  assert (Hbytes : utf8_bytes frame = decode Clean (content msg))
    by apply String.list_byte_of_string_of_list_byte.
  split; [|split].
  - apply (handleResultMessage_open utf8_toString w msg id ws s
             Hid Hreg Hs Hopen).
  - exact Hbytes.
  - intros Hwf. rewrite Hbytes. now apply decode_well_formed.
Qed.

(** ** The claims on the concrete platform *)

Local Abbreviation demo_on_message :=
  (on_message Demo.JSON_parse Demo.JSON_stringify Demo.Number_toString
     Demo.Buffer_from Demo.uuidv4).
Local Abbreviation demo_notification :=
  (handleAggregationNotification Demo.JSON_stringify Demo.Buffer_from).
Local Abbreviation demo_dead_letter :=
  (handleDeadLetterMessage Demo.JSON_parse Demo.JSON_stringify
     Demo.Number_toString Demo.Buffer_toString).
Local Abbreviation demo_result := (handleResultMessage Demo.Buffer_toString).

Lemma demo_append1 : append_frame Demo.JSON_parse Demo.append1 batch1.
Proof. eexists. repeat split; reflexivity. Defined.

Lemma demo_append2 : append_frame Demo.JSON_parse Demo.append2 batch2.
Proof. eexists. repeat split; reflexivity. Defined.

Lemma demo_end_formal :
  end_of_turn_frame Demo.JSON_parse Demo.end_formal (JStr "Formal").
Proof. eexists. repeat split; reflexivity. Defined.

Lemma demo_end_plain :
  end_of_turn_frame Demo.JSON_parse Demo.end_plain JUndefined.
Proof. eexists. repeat split; reflexivity. Defined.

(** The frame that the dead-letter consumer sends for [{sentence: 'hello'}],
    as JSON text. *)
Example fallback_frame_text :
  Demo.JSON_stringify
    (JObj [("fallbackText",
            JStr ("Audio unavailable. Translation: " +:+ dquote
                  +:+ "hello" +:+ dquote));
           ("conversationTone", JStr "Error")])
  = "{" +:+ dquote +:+ "fallbackText" +:+ dquote +:+ ":" +:+ dquote
    +:+ "Audio unavailable. Translation: \" +:+ dquote +:+ "hello\" +:+ dquote
    +:+ dquote +:+ "," +:+ dquote +:+ "conversationTone" +:+ dquote +:+ ":"
    +:+ dquote +:+ "Error" +:+ dquote +:+ "}".
Proof. reflexivity. Qed.

(** Numbers as [Number.prototype.toString] writes them. *)
Example number_texts :
  map Demo.Number_toString
    [0.5; 0.1 + 0.2; 100; 1e21; 1e-7; 0.000001; -1.5; 1 / 3; 5e-324;
     123456789012345680000; 0 / 0; -1 / 0]%float
  = ["0.5"; "0.30000000000000004"; "100"; "1e+21"; "1e-7"; "0.000001";
     "-1.5"; "0.3333333333333333"; "5e-324"; "123456789012345680000";
     "NaN"; "-Infinity"].
Proof. vm_compute. reflexivity. Qed.

(** A number that is not finite, and a line feed inside a string, as
    [JSON.stringify] writes them. *)
Example escaped_texts :
  Demo.JSON_stringify
    (JArr [JNum (0 / 0); JNum 0.5;
           JStr ("a" +:+ String (Ascii.ascii_of_nat 10) "b");
           JStr (String (Ascii.ascii_of_nat 1) EmptyString)])
  = "[null,0.5," +:+ dquote +:+ "a\nb" +:+ dquote +:+ "," +:+ dquote
    +:+ "\u0001" +:+ dquote +:+ "]".
Proof. vm_compute. reflexivity. Qed.

(** The worlds of the examples are reached from start-up: a client connects,
    sends two append frames and an end-of-turn frame, and hangs up. *)
Example connected_from_start :
  on_connection initial_world = (Return 0, Demo.connected, []).
Proof. vm_compute. reflexivity. Qed.

Example hung_up_from_connected :
  run_all [demo_on_message 0 Demo.append1;
           demo_on_message 0 Demo.append2;
           demo_on_message 0 Demo.end_formal;
           on_close 0] Demo.connected
  = (Return tt, Demo.hung_up,
     [submission Demo.JSON_stringify Demo.Buffer_from "uuid-0"
        [batch1; batch2] (JStr "Formal")]).
Proof. vm_compute. reflexivity. Qed.

(** A frame that is not JSON is answered with the error frame, to that
    socket only, and nothing else changes. *)
Example malformed_frame :
  demo_on_message 0 "hello" Demo.connected
  = (Return tt, Demo.connected,
     [Send 0 (Demo.JSON_stringify
                (JObj [("error", JStr "An internal error occurred.")]))]).
Proof. vm_compute. reflexivity. Qed.

(** C7 at start-up: nobody is registered, and a result message for [uuid-0]
    is only acknowledged. *)
Lemma result_without_entry_witness :
  resolve initial_world (Some "uuid-0") = None /\
  demo_result (Some Demo.result_message) initial_world
  = (Return tt, initial_world, [Ack Demo.result_message]).
Proof.
  split; [reflexivity|].
  apply (result_without_entry_is_only_acknowledged Demo.Buffer_toString).
  reflexivity.
Defined.

(** C6 fails as stated: in [Demo.hung_up] the identity [uuid-0] is registered
    to a socket that has closed, and after the result message has been
    handled the entry is still there. *)
Lemma result_for_closed_socket_keeps_entry :
  ~ (forall (w : World) (msg : Message) (id : string) (ws : nat),
        correlationId (properties msg) = Some id ->
        waitingClients w !! id = Some ws ->
        waitingClients (snd (fst (demo_result (Some msg) w))) !! id = None).
Proof.
  intros H.
  specialize (H Demo.hung_up Demo.result_message "uuid-0" 0 eq_refl eq_refl).
  vm_compute in H. discriminate H.
Qed.

(** C6, amended, on the waiting world. *)
Lemma result_removes_entry_witness :
  waitingClients Demo.waiting !! "uuid-0" = Some 0 /\
  waitingClients
    (snd (fst (demo_result (Some Demo.result_message) Demo.waiting)))
  !! "uuid-0" = None.
Proof.
  split; [reflexivity|].
  apply (result_removes_entry_of_open_socket Demo.Buffer_toString Demo.waiting
           Demo.result_message "uuid-0" 0 (mkWebSocket [] OPEN)
           eq_refl eq_refl eq_refl).
  reflexivity.
Defined.

(** C10 fails as stated: the content [ff 41] is not well-formed UTF-8, and
    the frame written for it has the bytes [ef bf bd 41]. *)
Lemma result_frame_replaces_ill_formed_bytes :
  ~ (forall (w : World) (msg : Message) (id : string) (ws : nat)
            (s : WebSocket) (frame : string),
        correlationId (properties msg) = Some id ->
        waitingClients w !! id = Some ws ->
        sockets w !! ws = Some s ->
        readyState s = OPEN ->
        In (Send ws frame)
           (snd (handleResultMessage utf8_toString (Some msg) w)) ->
        utf8_bytes frame = content msg).
Proof.
  intros H.
  specialize (H Demo.waiting Cases.ill_formed_result "uuid-0" 0
                (mkWebSocket [] OPEN)
                (utf8_toString [Byte.xff; Byte.x41])
                eq_refl eq_refl eq_refl eq_refl).
  assert (Hsent : In (Send 0 (utf8_toString [Byte.xff; Byte.x41]))
                     (snd (handleResultMessage utf8_toString
                             (Some Cases.ill_formed_result) Demo.waiting))).
  { vm_compute. right. left. reflexivity. }
  specialize (H Hsent). vm_compute in H. discriminate H.
Qed.

(** C10, amended, on the waiting world with a well-formed content. *)
Lemma result_frame_as_text_witness :
  well_formed (content Demo.result_message) = true /\
  utf8_bytes (utf8_toString (content Demo.result_message))
  = content Demo.result_message.
Proof.
  split; [reflexivity|].
  apply (result_frame_is_content_as_text Demo.waiting Demo.result_message
           "uuid-0" 0 (mkWebSocket [] OPEN));
    reflexivity.
Defined.

(** C5 on the waiting world, with the payload [{sentence: 'hello'}]. *)
Lemma dead_letter_witness :
  Demo.JSON_parse (Demo.Buffer_toString (content Demo.dead_letter))
  = Some (JObj [("sentence", JStr "hello")]) /\
  demo_dead_letter (Some Demo.dead_letter) Demo.waiting
  = (Return tt, set_waitingClients (delete "uuid-0") Demo.waiting,
     [Ack Demo.dead_letter;
      Send 0 (Demo.JSON_stringify
                (JObj [("fallbackText",
                        JStr ("Audio unavailable. Translation: " +:+ dquote
                              +:+ "hello" +:+ dquote));
                       ("conversationTone", JStr "Error")]))]).
Proof.
  split; [reflexivity|].
  apply (dead_letter_sends_fallback Demo.JSON_parse Demo.JSON_stringify
           Demo.Number_toString Demo.Buffer_toString Demo.waiting
           Demo.dead_letter "uuid-0" 0 (mkWebSocket [] OPEN)
           (JObj [("sentence", JStr "hello")]) "hello");
    reflexivity.
Defined.

(** C2 on the waiting world, whose record holds the tone ['Formal']. *)
Lemma barrier_forwards_witness :
  hash_at Demo.waiting "job:uuid-0" !! "user_tone" = Some "Formal" /\
  run_all [worker_hSet "uuid-0" "dominant_emotion" "happy";
           demo_notification (Some Demo.notification)]
    (set_redis (hset "job:uuid-0" "raw_gloss" "HELLO") Demo.waiting)
  = (Return tt, set_redis (delete "job:uuid-0") Demo.waiting,
     [Publish JOBS_EXCHANGE "gemini_task"
        (Demo.Buffer_from
           (Demo.JSON_stringify
              (JObj [("raw_gloss", JStr "HELLO");
                     ("dominant_emotion", JStr "happy");
                     ("user_tone", JStr "Formal")])))
        (mkProperties (Some "uuid-0") (Some RESULTS_QUEUE));
      Ack Demo.notification]).
Proof.
  split; [reflexivity|].
  apply (barrier_forwards_when_complete Demo.JSON_stringify Demo.Buffer_from
           Demo.waiting "uuid-0" "HELLO" "happy" "Formal"
           Demo.notification Demo.notification eq_refl eq_refl);
    [reflexivity | reflexivity | discriminate].
Defined.

(** C3 on a complete record. *)
Lemma barrier_duplicate_witness :
  hash_at Demo.untoned "job:uuid-0" !! "raw_gloss" = Some "HELLO" /\
  demo_notification (Some Demo.notification)
    (set_redis (delete "job:uuid-0") Demo.untoned)
  = (Return tt, set_redis (delete "job:uuid-0") Demo.untoned,
     [Ack Demo.notification]).
Proof.
  split; [reflexivity|].
  apply (barrier_duplicate_notification_is_noop Demo.JSON_stringify
           Demo.Buffer_from Demo.untoned Demo.notification "HELLO" "happy");
    reflexivity.
Defined.



(** C8 on the connected world. *)
Lemma formal_turn_witness :
  redis Demo.connected !! "job:uuid-0" = None /\
  let '(_, w', effects) :=
    run_all
      (map (demo_on_message 0) [Demo.append1; Demo.append2; Demo.end_formal])
      Demo.connected in
  effects
  = [Publish JOBS_EXCHANGE "recognition_task"
       (Demo.Buffer_from
          (Demo.JSON_stringify
             (JObj [("landmark_data", JArr [batch1; batch2]);
                    ("user_tone", JStr "Formal")])))
       (mkProperties (Some "uuid-0") (Some RESULTS_QUEUE))] /\
  waitingClients w' !! "uuid-0" = Some 0 /\
  redis w' !! "job:uuid-0"
  = Some (mkRedisHash {["user_tone" := "Formal"]} (Some 300)).
Proof.
  split; [reflexivity|].
  pose proof (formal_turn_scenario Demo.JSON_parse Demo.JSON_stringify
                Demo.Number_toString Demo.Buffer_from Demo.uuidv4
                Demo.connected 0 (mkWebSocket [] OPEN)
                Demo.append1 Demo.append2 Demo.end_formal
                eq_refl eq_refl demo_append1 demo_append2 demo_end_formal
                eq_refl) as H.
  destruct (run_all _ Demo.connected) as [[outcome w'] effects].
  destruct H as (_ & -> & -> & -> & _).
  split; [reflexivity|]. split; reflexivity.
Defined.

(** C9: an end-of-turn frame without a tone on a recording socket, and a
    notification for a record without a tone. *)
Lemma missing_tone_witness :
  hash_at Demo.untoned "job:uuid-0" !! "user_tone" = None /\
  demo_on_message 0 Demo.end_plain Demo.recording
  = (Return tt, submitted Demo.recording 0 "uuid-0" "Casual",
     [submission Demo.JSON_stringify Demo.Buffer_from "uuid-0"
        [batch1] JUndefined]) /\
  demo_notification (Some Demo.notification) Demo.untoned
  = (Return tt, set_redis (delete "job:uuid-0") Demo.untoned,
     [Publish JOBS_EXCHANGE "gemini_task"
        (Demo.Buffer_from
           (Demo.JSON_stringify
              (JObj [("raw_gloss", JStr "HELLO");
                     ("dominant_emotion", JStr "happy");
                     ("user_tone", JStr "Casual")])))
        (mkProperties (Some "uuid-0") (Some RESULTS_QUEUE));
      Ack Demo.notification]).
Proof.
  split; [reflexivity|].
  destruct (missing_tone_defaults_to_Casual Demo.JSON_parse Demo.JSON_stringify
              Demo.Number_toString Demo.Buffer_from Demo.uuidv4
              Demo.recording 0 (mkWebSocket [batch1] OPEN) Demo.end_plain
              Demo.untoned Demo.notification "HELLO" "happy"
              eq_refl ltac:(discriminate) demo_end_plain
              eq_refl eq_refl eq_refl)
    as (Hturn & _ & Hforward).
  split; [exact Hturn | exact Hforward].
Defined.

(** ** The further properties on the concrete platform *)

Local Abbreviation demo_visible evs w :=
  (visible
     (async_run Demo.JSON_parse Demo.JSON_stringify Demo.Number_toString
        Demo.Buffer_from Demo.uuidv4 evs (settled w))).

Local Abbreviation case_onmessage :=
  (onmessage Cases.JSON_parse Demo.Number_toString).

(** X1 on the connected world, with a frame that is not JSON. *)
Lemma malformed_frame_witness :
  Demo.JSON_parse "hello" = None /\
  demo_on_message 0 "hello" Demo.connected
  = (Return tt, Demo.connected,
     [Send 0 (Demo.JSON_stringify
                (JObj [("error", JStr "An internal error occurred.")]))]).
Proof.
  split; [reflexivity|].
  apply (malformed_frame_gets_error_frame Demo.JSON_parse Demo.JSON_stringify
           Demo.Number_toString Demo.Buffer_from Demo.uuidv4
           Demo.connected 0 (mkWebSocket [] OPEN));
    [reflexivity | reflexivity | left; reflexivity].
Defined.

(** X2 with a frame that has no [type]. *)
Lemma frame_of_other_type_witness :
  Demo.JSON_parse Demo.failed_hello = Some (JObj [("sentence", JStr "hello")]) /\
  demo_on_message 0 Demo.failed_hello Demo.connected
  = (Return tt, Demo.connected, []).
Proof.
  split; [reflexivity|].
  apply (frame_of_other_type_is_ignored Demo.JSON_parse Demo.JSON_stringify
           Demo.Number_toString Demo.Buffer_from Demo.uuidv4
           Demo.connected 0 Demo.failed_hello
           (JObj [("sentence", JStr "hello")]) JUndefined);
    reflexivity.
Defined.

(** X3 for socket [0], seen from socket [1]. *)
Lemma on_message_confined_witness :
  1 <> 0 /\
  let '(_, w', effects) := demo_on_message 0 Demo.end_formal Demo.recording in
  sockets w' !! 1 = sockets Demo.recording !! 1 /\
  Forall (own_effect 0) effects.
Proof.
  assert (H : 1 <> 0) by discriminate.
  split; [exact H|].
  exact (on_message_is_confined_to_its_socket Demo.JSON_parse
           Demo.JSON_stringify Demo.Number_toString Demo.Buffer_from
           Demo.uuidv4 Demo.recording 0 1 Demo.end_formal H).
Defined.

(** X4 with the two append frames. *)
Lemma append_frames_witness :
  sockets Demo.connected !! 0 = Some (mkWebSocket [] OPEN) /\
  run_all (map (demo_on_message 0) [Demo.append1; Demo.append2]) Demo.connected
  = (Return tt,
     set_sockets <[0 := mkWebSocket ([] ++ [batch1; batch2]) OPEN]>
       Demo.connected,
     []).
Proof.
  split; [reflexivity|].
  apply (append_frames_only_accumulate Demo.JSON_parse Demo.JSON_stringify
           Demo.Number_toString Demo.Buffer_from Demo.uuidv4
           Demo.connected 0 (mkWebSocket [] OPEN));
    [reflexivity|].
  repeat constructor; [exact demo_append1 | exact demo_append2].
Defined.

(** X5: a turn with tone ['Formal'], then a turn without a tone. *)
Lemma consecutive_turns_store_witness :
  Demo.uuidv4 0 <> Demo.uuidv4 1 /\
  let turn1 := frames_of 0 ([Demo.append1] ++ [Demo.end_formal]) in
  let turn2 := frames_of 0 ([Demo.append2] ++ [Demo.end_plain]) in
  let after :=
    submitted
      (submitted Demo.connected 0 (Demo.uuidv4 0) "Formal")
      0 (Demo.uuidv4 1) "Casual"
  in
  demo_visible (turn1 ++ replies ++ turn2 ++ replies) Demo.connected
  = (Return tt, after,
     [submission Demo.JSON_stringify Demo.Buffer_from (Demo.uuidv4 0)
        [batch1] (JStr "Formal");
      submission Demo.JSON_stringify Demo.Buffer_from (Demo.uuidv4 1)
        [batch2] JUndefined]) /\
  demo_visible (turn1 ++ turn2 ++ replies ++ replies) Demo.connected
  = (Return tt, after,
     [submission Demo.JSON_stringify Demo.Buffer_from (Demo.uuidv4 0)
        [batch1; batch2] (JStr "Formal");
      submission Demo.JSON_stringify Demo.Buffer_from (Demo.uuidv4 1)
        [batch1; batch2] JUndefined]).
Proof.
  split; [discriminate|].
  apply (consecutive_turns_and_the_awaited_store Demo.JSON_parse
           Demo.JSON_stringify Demo.Number_toString Demo.Buffer_from
           Demo.uuidv4 Demo.connected 0 (mkWebSocket [] OPEN)
           [Demo.append1] [Demo.append2] [batch1] [batch2]
           Demo.end_formal Demo.end_plain (JStr "Formal") JUndefined
           "Formal" "Casual");
    try reflexivity; try discriminate;
    try (repeat constructor; first [exact demo_append1 | exact demo_append2]).
  - exact demo_end_formal.
  - exact demo_end_plain.
Defined.

(** X26: the second batch arrives after the end-of-turn frame, before the
    replies of the store. *)
Lemma late_batches_witness :
  sockets Demo.connected !! 0 = Some (mkWebSocket [] OPEN) /\
  demo_visible
    (frames_of 0 ([Demo.append1] ++ [Demo.end_formal])
     ++ frames_of 0 [Demo.append2] ++ replies)
    Demo.connected
  = (Return tt, Demo.waiting,
     [submission Demo.JSON_stringify Demo.Buffer_from "uuid-0"
        [batch1; batch2] (JStr "Formal")]).
Proof.
  split; [reflexivity|].
  change Demo.waiting with (submitted Demo.connected 0 (Demo.uuidv4 0) "Formal").
  apply (late_batches_enter_the_pending_job Demo.JSON_parse
           Demo.JSON_stringify Demo.Number_toString Demo.Buffer_from
           Demo.uuidv4 Demo.connected 0 (mkWebSocket [] OPEN)
           [Demo.append1] [Demo.append2] [batch1] [batch2]
           Demo.end_formal (JStr "Formal") "Formal");
    try reflexivity; try discriminate;
    try (repeat constructor; first [exact demo_append1 | exact demo_append2]).
  exact demo_end_formal.
Defined.

(** X7: the record of another job is not touched. *)
Lemma notification_other_record_witness :
  "job:other" <> redisKey (correlationId (properties Demo.notification)) /\
  redis (snd (fst (demo_notification (Some Demo.notification) Demo.untoned)))
  !! "job:other"
  = redis Demo.untoned !! "job:other".
Proof.
  assert (H : "job:other"
              <> redisKey (correlationId (properties Demo.notification)))
    by discriminate.
  split; [exact H|].
  apply (notification_touches_one_record Demo.JSON_stringify Demo.Buffer_from
           Demo.untoned Demo.notification "job:other" H).
Defined.

(** X8 on a record whose fields are all empty. *)
Lemma forwarded_tone_witness :
  hash_at Cases.blank "job:uuid-0" !! "user_tone" = Some EmptyString /\
  demo_notification (Some Demo.notification) Cases.blank
  = (Return tt, set_redis (delete "job:uuid-0") Cases.blank,
     [Publish JOBS_EXCHANGE "gemini_task"
        (Demo.Buffer_from
           (Demo.JSON_stringify
              (JObj [("raw_gloss", JStr EmptyString);
                     ("dominant_emotion", JStr EmptyString);
                     ("user_tone", JStr "Casual")])))
        (mkProperties (Some "uuid-0") (Some RESULTS_QUEUE));
      Ack Demo.notification]).
Proof.
  split; [reflexivity|].
  apply (forwarded_tone_is_stored_or_Casual Demo.JSON_stringify
           Demo.Buffer_from Cases.blank Demo.notification
           EmptyString EmptyString);
    reflexivity.
Defined.

(** X9 after the client has hung up. *)
Lemma delivery_to_closed_socket_witness :
  resolve Demo.hung_up (Some "uuid-0") = Some 0 /\
  demo_result (Some Demo.dead_letter) Demo.hung_up
  = (Return tt, Demo.hung_up, [Ack Demo.dead_letter]) /\
  demo_dead_letter (Some Demo.dead_letter) Demo.hung_up
  = (Return tt, Demo.hung_up, [Ack Demo.dead_letter]).
Proof.
  split; [reflexivity|].
  apply (delivery_to_closed_socket_is_dropped Demo.JSON_parse
           Demo.JSON_stringify Demo.Number_toString Demo.Buffer_toString
           Demo.hung_up Demo.dead_letter 0 (mkWebSocket [] CLOSED));
    [reflexivity | reflexivity | discriminate].
Defined.

(** X10 at start-up. *)
Lemma dead_letter_without_entry_witness :
  resolve initial_world (Some "uuid-0") = None /\
  demo_dead_letter (Some Demo.dead_letter) initial_world
  = (Return tt, initial_world, [Ack Demo.dead_letter]).
Proof.
  split; [reflexivity|].
  apply (dead_letter_without_entry_is_only_acknowledged Demo.JSON_parse
           Demo.JSON_stringify Demo.Number_toString Demo.Buffer_toString).
  reflexivity.
Defined.

(** X11 with a payload that is not JSON. *)
Lemma dead_letter_bad_payload_witness :
  Demo.JSON_parse (Demo.Buffer_toString (content Cases.garbled_letter)) = None /\
  demo_dead_letter (Some Cases.garbled_letter) Demo.waiting
  = (Throw SyntaxError, Demo.waiting, [Ack Cases.garbled_letter]).
Proof.
  split; [reflexivity|].
  apply (dead_letter_with_bad_payload_throws Demo.JSON_parse
           Demo.JSON_stringify Demo.Number_toString Demo.Buffer_toString
           Demo.waiting Cases.garbled_letter 0 (mkWebSocket [] OPEN));
    reflexivity.
Defined.

(** X12 with a payload that has no sentence. *)
Lemma dead_letter_without_sentence_witness :
  Demo.JSON_parse (Demo.Buffer_toString (content Cases.sentenceless_letter))
  = Some (JObj [("type", JStr "end_of_sentence")]) /\
  demo_dead_letter (Some Cases.sentenceless_letter) Demo.waiting
  = (Return tt, set_waitingClients (delete "uuid-0") Demo.waiting,
     [Ack Cases.sentenceless_letter;
      Send 0 (Demo.JSON_stringify
                (JObj [("fallbackText",
                        JStr ("Audio unavailable. Translation: " +:+ dquote
                              +:+ "undefined" +:+ dquote));
                       ("conversationTone", JStr "Error")]))]).
Proof.
  split; [reflexivity|].
  apply (dead_letter_without_sentence_says_undefined Demo.JSON_parse
           Demo.JSON_stringify Demo.Number_toString Demo.Buffer_toString
           Demo.waiting Cases.sentenceless_letter "uuid-0" 0
           (mkWebSocket [] OPEN) (JObj [("type", JStr "end_of_sentence")]));
    reflexivity.
Defined.

(** X13: the turn of the connected world, then the result for its job. *)
Lemma job_entry_removed_witness :
  waitingClients Demo.connected !! Demo.uuidv4 0 = None /\
  waitingClients
    (snd (fst (run_all
                 (map (demo_on_message 0)
                    ([Demo.append1; Demo.append2] ++ [Demo.end_formal])
                  ++ [demo_result (Some Demo.result_message)])
                 Demo.connected)))
  = waitingClients Demo.connected.
Proof.
  split; [reflexivity|].
  pose proof (job_entry_is_removed_by_its_result Demo.JSON_parse
                Demo.JSON_stringify Demo.Number_toString Demo.Buffer_from
                Demo.Buffer_toString Demo.uuidv4
                Demo.connected 0 (mkWebSocket [] OPEN)
                [Demo.append1; Demo.append2] [batch1; batch2]
                Demo.end_formal (JStr "Formal") "Formal" Demo.result_message
                eq_refl eq_refl eq_refl
                ltac:(repeat constructor;
                      [exact demo_append1 | exact demo_append2])
                ltac:(discriminate) demo_end_formal eq_refl eq_refl eq_refl)
    as H.
  destruct (run_all _ Demo.connected) as [[outcome w'] effects].
  destruct H as (_ & _ & H). exact H.
Defined.

(** X14 on a recording socket, with tone ['Formal']. *)
Lemma tone_reaches_second_stage_witness :
  js_or (JStr "Formal") (JStr "Casual") = JStr "Formal" /\
  run_all [demo_on_message 0 Demo.end_formal;
           worker_hSet (Demo.uuidv4 0) "raw_gloss" "HELLO";
           worker_hSet (Demo.uuidv4 0) "dominant_emotion" "happy";
           demo_notification (Some Demo.notification)] Demo.recording
  = (Return tt,
     set_redis (delete (redisKey (Some (Demo.uuidv4 0))))
       (submitted Demo.recording 0 (Demo.uuidv4 0) "Formal"),
     [Publish JOBS_EXCHANGE "recognition_task"
        (Demo.Buffer_from
           (Demo.JSON_stringify
              (JObj [("landmark_data", JArr [batch1]);
                     ("user_tone", JStr "Formal")])))
        (mkProperties (Some (Demo.uuidv4 0)) (Some RESULTS_QUEUE));
      Publish JOBS_EXCHANGE "gemini_task"
        (Demo.Buffer_from
           (Demo.JSON_stringify
              (JObj [("raw_gloss", JStr "HELLO");
                     ("dominant_emotion", JStr "happy");
                     ("user_tone", JStr "Formal")])))
        (mkProperties (Some (Demo.uuidv4 0)) (Some RESULTS_QUEUE));
      Ack Demo.notification]).
Proof.
  split; [reflexivity|].
  apply (tone_of_turn_reaches_second_stage Demo.JSON_parse
           Demo.JSON_stringify Demo.Number_toString Demo.Buffer_from
           Demo.uuidv4 Demo.recording 0 (mkWebSocket [batch1] OPEN)
           Demo.end_formal (JStr "Formal") "Formal" "HELLO" "happy"
           Demo.notification);
    [reflexivity | discriminate | exact demo_end_formal
    | reflexivity | reflexivity].
Defined.

(** X15 with the failure frame for the sentence [hello], while a toast is on
    display. *)
Lemma failure_frame_witness :
  Cases.JSON_parse (Demo.JSON_stringify Cases.failure_hello)
  = Some Cases.failure_hello /\
  case_onmessage (Demo.JSON_stringify Cases.failure_hello) Cases.with_toast
  = (Return tt,
     mkUI None (JStr "Error") (JStr EmptyString) false (Some 7), []).
Proof.
  split; [reflexivity|].
  apply (failure_frame_only_sets_the_tone Cases.JSON_parse
           Demo.JSON_stringify Demo.Number_toString Cases.with_toast "hello").
  reflexivity.
Defined.


(** X17 with the error frame of the server. *)
Lemma toast_witness :
  Cases.JSON_parse (Demo.JSON_stringify Cases.error_frame)
  = Some Cases.error_frame /\
  case_onmessage (Demo.JSON_stringify Cases.error_frame) initial_UI
  = (Return tt,
     mkUI (Some (mkToast (JStr "An internal error occurred.") "error"))
          (JStr "N/A") (JStr EmptyString) false None,
     []).
Proof.
  split; [reflexivity|].
  apply (toast_shows_fallback_then_error Cases.JSON_parse
           Demo.Number_toString initial_UI
           (Demo.JSON_stringify Cases.error_frame) Cases.error_frame
           JUndefined JUndefined JUndefined JUndefined
           (JStr "An internal error occurred."));
    reflexivity.
Defined.

(** X18 with a frame that is not JSON. *)
Lemma client_frame_unreadable_witness :
  Cases.JSON_parse "hello" = None /\
  case_onmessage "hello" Cases.with_toast
  = (Throw SyntaxError, Cases.with_toast, []).
Proof.
  split; [reflexivity|].
  apply (client_frame_that_cannot_be_read Cases.JSON_parse
           Demo.Number_toString Cases.with_toast "hello").
  reflexivity.
Defined.

(** X20 from the recorder at mount. *)
Lemma capture_buffer_witness :
  length (sequenceRef initial_recorder) < sequenceBuffer /\
  length
    (sequenceRef
       (fst (client_run Demo.JSON_stringify
               [Frame Cases.hands_up; StartTimer; Frame Cases.hands_up;
                Frame Cases.no_hands; StopTimer]
               initial_recorder)))
  < sequenceBuffer.
Proof.
  assert (H : length (sequenceRef initial_recorder) < sequenceBuffer)
    by (unfold sequenceBuffer; cbn; lia).
  split; [exact H|].
  pose proof (capture_buffer_stays_below_thirty Demo.JSON_stringify
                [Frame Cases.hands_up; StartTimer; Frame Cases.hands_up;
                 Frame Cases.no_hands; StopTimer]
                initial_recorder H) as Hrun.
  destruct (client_run _ _ initial_recorder) as [r' sent].
  exact (proj1 Hrun).
Defined.

(** X21 with a socket that has closed: the batch is lost. *)
Lemma full_batch_witness :
  length (sequenceRef Cases.almost_full) = 29 /\
  onResults Demo.JSON_stringify Cases.hands_up Cases.almost_full
  = (set_sequenceRef [] Cases.almost_full, []).
Proof.
  split; [reflexivity|].
  pose proof (full_batch_is_sent_or_discarded Demo.JSON_stringify
                Cases.hands_up Cases.almost_full eq_refl eq_refl) as H.
  destruct (onResults _ Cases.hands_up Cases.almost_full) as [r' sent] eqn:Hrun.
  destruct H as [_ Hsent]. cbn in Hsent. subst sent.
  rewrite <- Hrun. vm_compute. reflexivity.
Defined.

(** X22: one camera frame between Start and Stop. *)
Lemma short_sentence_witness :
  end_of_turn_frame Demo.JSON_parse
    (end_of_sentence_frame Demo.JSON_stringify "Formal") (JStr "Formal") /\
  snd (client_run Demo.JSON_stringify
         (ManualStart :: map Frame [Cases.hands_up] ++ [ManualStop])
         Cases.manual_open)
  = [end_of_sentence_frame Demo.JSON_stringify "Formal"].
Proof.
  assert (Hframe : end_of_turn_frame Demo.JSON_parse
                     (end_of_sentence_frame Demo.JSON_stringify "Formal")
                     (JStr "Formal"))
    by (eexists; repeat split; reflexivity).
  split; [exact Hframe|].
  pose proof (short_sentence_makes_no_job Demo.JSON_parse Demo.JSON_stringify
                Demo.Number_toString Demo.Buffer_from Demo.uuidv4
                Cases.manual_open [Cases.hands_up] Demo.connected 0
                (mkWebSocket [] OPEN) (JStr "Formal")
                eq_refl eq_refl eq_refl
                ltac:(unfold sequenceBuffer; cbn; lia)
                eq_refl eq_refl Hframe) as H.
  destruct (client_run _ _ Cases.manual_open) as [r' sent].
  exact (proj1 H).
Defined.

(** X23: hands back in view while the stop timer is pending. *)
Lemma pending_timers_witness :
  stopTimeout Cases.stopping = true /\
  stopTimeout
    (fst (client_run Demo.JSON_stringify
            (map Frame [Cases.hands_up; Cases.hands_up]) Cases.stopping))
  = true.
Proof.
  split; [reflexivity|].
  apply (pending_timers_survive_frames Demo.JSON_stringify
           [Cases.hands_up; Cases.hands_up] Cases.stopping eq_refl);
    reflexivity.
Defined.

(** X24 from the recorder at mount. *)
Lemma mode_toggle_witness :
  handsVisible Cases.hands_up = true /\
  isRecording
    (fst (client_run Demo.JSON_stringify
            [Frame Cases.hands_up; ModeToggle; StartTimer] initial_recorder))
  = true.
Proof.
  split; [reflexivity|].
  apply (mode_toggle_leaves_start_timer_armed Demo.JSON_stringify
           Cases.hands_up initial_recorder);
    reflexivity.
Defined.
